(** * gateway-mt: admin RPCs, backup job, KV dispatch and response delegator

    A shallow embedding of
    - [pkg/auth/badgerauth]: the [Admin] service and the [Backup] job,
    - [pkg/auth]: [OpenKV],
    - [pkg/middleware]: [flusherDelegator],
    together with the properties their specification states about them.

    Conventions.  Go's [error] is [option error] ([None] is [nil]); an
    [int64] is a [Z] with the wrap-around written out; byte slices are
    [list byte]; Go strings are [string].  Effects on collaborators that the
    code only talks to through an interface (the wrapped [http.ResponseWriter],
    the object-store [Client]) are recorded as a trace of calls. *)

From Stdlib Require Import ZArith List String Ascii Bool Lia.
From Stdlib Require Import DecimalString DecimalPos DecimalN.
From stdpp Require Import base decidable countable gmap strings list.

Import ListNotations.
Local Open Scope Z_scope.
Local Open Scope string_scope.
Local Open Scope list_scope.

(** ** Machine integers *)

(** [int64] arithmetic wraps around in Go. *)
Definition wrap64 (x : Z) : Z := (x + 2 ^ 63) mod 2 ^ 64 - 2 ^ 63.

Definition in_int64 (x : Z) : Prop := - 2 ^ 63 <= x < 2 ^ 63.

(** ** Errors

    The error values the embedded functions build or pass on.
    [rpcstatus.Error], [errs.New] and [errs.Class] belong to libraries
    outside the repository; they are modelled by what they construct. *)

Inductive StatusCode :=
| InvalidArgument
| NotFound
| Internal.

Inductive error :=
| RPCStatusError (code : StatusCode) (msg : string)
    (* rpcstatus.Error(code, msg) *)
| ErrsNew (format : string) (args : list string)
    (* errs.New(format, args...) *)
| ClassNew (class : string) (format : string) (cause : error)
    (* errs.Class(class).New(format, cause), the format ending in %w *)
| ClassWrap (class : string) (cause : error)
    (* errs.Class(class).Wrap(cause), cause non-nil *)
| EOF
    (* io.EOF *)
| Foreign (descr : string).
    (* an error made by a collaborator *)

(** [errs.Class.Has]: the error, or one it wraps, was made by the class. *)
Fixpoint ClassHas (class : string) (e : error) : bool :=
  match e with
  | ClassNew c _ cause => String.eqb c class || ClassHas class cause
  | ClassWrap c cause => String.eqb c class || ClassHas class cause
  | _ => false
  end.

(** [errs.Class.Wrap]: nil stays nil. *)
Definition ClassWrapErr (class : string) (err : option error) : option error :=
  match err with
  | None => None
  | Some e => Some (ClassWrap class e)
  end.

(** ** pkg/middleware: flusherDelegator *)

Module middleware.

(** [http.StatusOK] *)
Definition StatusOK : Z := 200.

(** What the delegator does to the outside: calls of the two measure
    functions and calls delegated to the wrapped [http.ResponseWriter]. *)
Inductive Event :=
| AtWriteHeader (code : Z)            (* f.atWriteHeaderFunc(code) *)
| AtTimeToFirstByte (status : Z)      (* f.atTimeToFirstByteFunc(f.status) *)
| RWWriteHeader (code : Z)            (* f.ResponseWriter.WriteHeader(code) *)
| RWWrite (b : list Byte.byte) (n : Z) (* f.ResponseWriter.Write(b), which returned n *)
| RWFlush.                            (* f.ResponseWriter.(http.Flusher).Flush() *)

(** The struct.  The two [measureFunc] fields are opaque callbacks: the
    field says whether the callback is non-nil, a call is an [Event].
    [isFlusher] says whether the embedded [ResponseWriter] implements
    [http.Flusher] (the type assertion in [Flush] panics otherwise). *)
Record flusherDelegator := {
  isFlusher : bool;
  atWriteHeaderFunc : bool;
  atTimeToFirstByteFunc : bool;
  status : Z;
  written : Z;
  wroteHeader : bool;
  observedTimeToFirstByte : bool
}.

Definition set_header (code : Z) (f : flusherDelegator) : flusherDelegator :=
  {| isFlusher := isFlusher f;
     atWriteHeaderFunc := atWriteHeaderFunc f;
     atTimeToFirstByteFunc := atTimeToFirstByteFunc f;
     status := code;
     written := written f;
     wroteHeader := true;
     observedTimeToFirstByte := observedTimeToFirstByte f |}.

Definition set_observed (f : flusherDelegator) : flusherDelegator :=
  {| isFlusher := isFlusher f;
     atWriteHeaderFunc := atWriteHeaderFunc f;
     atTimeToFirstByteFunc := atTimeToFirstByteFunc f;
     status := status f;
     written := written f;
     wroteHeader := wroteHeader f;
     observedTimeToFirstByte := true |}.

Definition add_written (n : Z) (f : flusherDelegator) : flusherDelegator :=
  {| isFlusher := isFlusher f;
     atWriteHeaderFunc := atWriteHeaderFunc f;
     atTimeToFirstByteFunc := atTimeToFirstByteFunc f;
     status := status f;
     written := wrap64 (written f + n);
     wroteHeader := wroteHeader f;
     observedTimeToFirstByte := observedTimeToFirstByte f |}.

(** [func (f *flusherDelegator) WriteHeader(code int)] *)
Definition WriteHeader (code : Z) (f : flusherDelegator)
  : flusherDelegator * list Event :=
  let called :=
    if atWriteHeaderFunc f && negb (wroteHeader f)
    then [AtWriteHeader code] else [] in
  (set_header code f, called ++ [RWWriteHeader code]).

(** [func (f *flusherDelegator) Write(b []byte) (int, error)];
    [n] and [err] are what the wrapped writer returns for [b]. *)
Definition Write (b : list Byte.byte) (n : Z) (err : option error)
    (f : flusherDelegator)
  : flusherDelegator * list Event * (Z * option error) :=
  let '(f1, ev1) :=
    if negb (wroteHeader f) then WriteHeader StatusOK f else (f, []) in
  let '(f2, ev2) :=
    if atTimeToFirstByteFunc f1 && negb (observedTimeToFirstByte f1)
    then (set_observed f1, [AtTimeToFirstByte (status f1)])
    else (f1, []) in
  (add_written n f2, ev1 ++ [RWWrite b n] ++ ev2, (n, err)).

(** [func (f flusherDelegator) Flush()].  The receiver is a value: the
    body runs on a copy of the struct, so what [WriteHeader] stores in
    [status] and [wroteHeader] is dropped when [Flush] returns, while the
    calls it made have happened.  The result is [None] when the type
    assertion panics. *)
Definition Flush (f : flusherDelegator)
  : flusherDelegator * list Event * option unit :=
  let '(copy, ev1) :=
    if negb (wroteHeader f) then WriteHeader StatusOK f else (f, []) in
  if isFlusher copy
  then (f, ev1 ++ [RWFlush], Some tt)
  else (f, ev1, None).

(** A call made by the HTTP handler on the delegator; a [Write] carries
    the result of the wrapped writer. *)
Inductive Call :=
| CallWriteHeader (code : Z)
| CallWrite (b : list Byte.byte) (n : Z) (err : option error)
| CallFlush.

Definition step (c : Call) (f : flusherDelegator)
  : flusherDelegator * list Event * bool :=
  match c with
  | CallWriteHeader code =>
      let '(f', ev) := WriteHeader code f in (f', ev, true)
  | CallWrite b n err =>
      let '(f', ev, _) := Write b n err f in (f', ev, true)
  | CallFlush =>
      let '(f', ev, r) := Flush f in
      (f', ev, match r with Some _ => true | None => false end)
  end.

(** Runs the calls in order; a panic ends the run. *)
Fixpoint run (cs : list Call) (f : flusherDelegator)
  : flusherDelegator * list Event :=
  match cs with
  | [] => (f, [])
  | c :: cs' =>
      let '(f1, ev1, ok) := step c f in
      if ok
      then let '(f2, ev2) := run cs' f1 in (f2, ev1 ++ ev2)
      else (f1, ev1)
  end.

Definition isFlush (c : Call) : bool :=
  match c with CallFlush => true | _ => false end.

Definition isAtWriteHeader (e : Event) : bool :=
  match e with AtWriteHeader _ => true | _ => false end.

Definition isAtTimeToFirstByte (e : Event) : bool :=
  match e with AtTimeToFirstByte _ => true | _ => false end.

Definition count (p : Event -> bool) (evs : list Event) : nat :=
  List.length (List.filter p evs).

(** Sum of the byte counts the wrapped writer returned. *)
Fixpoint sumWritten (evs : list Event) : Z :=
  match evs with
  | [] => 0
  | RWWrite _ n :: evs' => n + sumWritten evs'
  | _ :: evs' => sumWritten evs'
  end.

(** The bytes of a small response body. *)
Definition hi : list Byte.byte := [Byte.x68; Byte.x69].

(** A fresh delegator as the middleware builds it, with both callbacks. *)
Definition fresh : flusherDelegator :=
  {| isFlusher := true;
     atWriteHeaderFunc := true;
     atTimeToFirstByteFunc := true;
     status := 0;
     written := 0;
     wroteHeader := false;
     observedTimeToFirstByte := false |}.

End middleware.

(** ** Go's [path] package

    [path.Clean] and [path.Join] of the Go standard library, by elements:
    the path is cut at every slash, the elements are processed from left to
    right exactly as [Clean] does (empty and [.] elements dropped, [..]
    removing the element before it, or kept at the front of a path that is
    not rooted), and the result is put together again. *)

Module path.

Definition slash : ascii := "/"%char.

(** [strings.Split(s, "/")] *)
Fixpoint split (s : string) : list string :=
  match s with
  | EmptyString => [EmptyString]
  | String c s' =>
      if Ascii.eqb c slash then EmptyString :: split s'
      else match split s' with
           | h :: t => String c h :: t
           | [] => [String c EmptyString]
           end
  end.

(** [strings.Join(elems, "/")] *)
Fixpoint join (elems : list string) : string :=
  match elems with
  | [] => EmptyString
  | [e] => e
  | e :: rest => e +:+ String slash (join rest)
  end.

Definition rooted (p : string) : bool :=
  match p with
  | String c _ => Ascii.eqb c slash
  | EmptyString => false
  end.

(** One element of the scan; [out] holds the elements written so far, the
    last one first. *)
Definition cleanStep (isRooted : bool) (out : list string) (elem : string)
  : list string :=
  if String.eqb elem "" then out
  else if String.eqb elem "." then out
  else if String.eqb elem ".." then
    match out with
    | top :: below =>
        if String.eqb top ".."
        then (if isRooted then out else elem :: out)
        else below
    | [] => if isRooted then out else [elem]
    end
  else elem :: out.

Definition render (isRooted : bool) (out : list string) : string :=
  match out, isRooted with
  | [], false => "."
  | [], true => "/"
  | _, false => join (rev out)
  | _, true => String slash (join (rev out))
  end.

(** [path.Clean] *)
Definition Clean (p : string) : string :=
  if String.eqb p "" then "."
  else render (rooted p) (fold_left (cleanStep (rooted p)) (split p) []).

(** The buffer [path.Join] builds: empty elements before the first
    non-empty one are skipped, every later element follows a slash. *)
Fixpoint joinBuf (buf : string) (elem : list string) : string :=
  match elem with
  | [] => buf
  | e :: rest =>
      if negb (String.eqb buf "") then joinBuf (buf +:+ String slash e) rest
      else if negb (String.eqb e "") then joinBuf e rest
      else joinBuf buf rest
  end.

(** The rest of the buffer once it is not empty: a slash before every
    further element. *)
Fixpoint joinRest (elem : list string) : string :=
  match elem with
  | [] => ""
  | e :: rest => String slash (e +:+ joinRest rest)
  end.

(** [path.Join] *)
Definition Join (elem : list string) : string :=
  if forallb (fun e => String.eqb e "") elem then ""
  else Clean (joinBuf "" elem).

(** Reading aids for the properties of [Clean]: an element without a
    slash, an ordinary element (not empty, not [.] and not [..]), and the
    shape of the elements [Clean] has written so far: no empty or [.]
    element, and [..] only at the front of a path that is not rooted. *)
Fixpoint noSlash (s : string) : bool :=
  match s with
  | EmptyString => true
  | String c s' => negb (Ascii.eqb c slash) && noSlash s'
  end.

Definition element (e : string) : bool :=
  noSlash e && negb (String.eqb e "") && negb (String.eqb e ".").

Definition plain (e : string) : bool :=
  element e && negb (String.eqb e "..").

Fixpoint cleanOut (isRooted : bool) (out : list string) : bool :=
  match out with
  | [] => true
  | e :: below =>
      element e && cleanOut isRooted below
      && (if String.eqb e ".."
          then negb isRooted
               && match below with
                  | [] => true
                  | b :: _ => String.eqb b ".."
                  end
          else true)
  end.

End path.

(** ** Go's [time] package: the two layouts the backup job prints with *)

Module time.

(** A wall-clock reading in UTC, [time.Now().UTC()], by its civil fields
    and the nanoseconds within the second. *)
Record Time := {
  Year : Z;
  Month : Z;
  Day : Z;
  Hour : Z;
  Minute : Z;
  Second : Z;
  Nanosecond : Z
}.

Fixpoint zeros (n : nat) : string :=
  match n with
  | O => ""
  | S n' => String "0" (zeros n')
  end.

Definition digits (u : Z) : string :=
  DecimalString.NilEmpty.string_of_uint (N.to_uint (Z.to_N u)).

(** [appendInt(b, x, width)]: decimal, zero-padded to [width], with a
    leading minus sign for a negative [x]. *)
Definition appendInt (x : Z) (width : nat) : string :=
  let d := digits (Z.abs x) in
  (if Z.ltb x 0 then "-" else "") +:+ zeros (width - String.length d)%nat +:+ d.

(** [t.Format("2006/01/02")] *)
Definition FormatDate (t : Time) : string :=
  appendInt (Year t) 4 +:+ "/" +:+ appendInt (Month t) 2 +:+ "/"
    +:+ appendInt (Day t) 2.

(** [t.Format(time.RFC3339)] for a time in UTC:
    layout [2006-01-02T15:04:05Z07:00], the zone printed as [Z]. *)
Definition FormatRFC3339 (t : Time) : string :=
  appendInt (Year t) 4 +:+ "-" +:+ appendInt (Month t) 2 +:+ "-"
    +:+ appendInt (Day t) 2 +:+ "T" +:+ appendInt (Hour t) 2 +:+ ":"
    +:+ appendInt (Minute t) 2 +:+ ":" +:+ appendInt (Second t) 2 +:+ "Z".

(** Strings without a slash and without a dot, such as the printed
    numbers. *)
Definition stampChar (c : ascii) : bool :=
  negb (Ascii.eqb c "/") && negb (Ascii.eqb c ".").

Fixpoint stamp (s : string) : bool :=
  match s with
  | EmptyString => true
  | String c s' => stampChar c && stamp s'
  end.

End time.

(** ** Bytes as map keys *)

#[global] Instance byte_eq_dec : EqDecision Byte.byte.
Proof.
  intros a b. destruct (N.eq_dec (Byte.to_N a) (Byte.to_N b)) as [E | E].
  - left. pose proof (Byte.of_to_N a) as Ha.
    rewrite E, Byte.of_to_N in Ha. congruence.
  - right. intros ->. exact (E eq_refl).
Defined.

#[global] Instance byte_countable : Countable Byte.byte :=
  inj_countable Byte.to_N Byte.of_N Byte.of_to_N.

(** ** pkg/auth/authdb *)

Module authdb.

(** [type KeyHash [32]byte] *)
Definition KeyHash : Type := list Byte.byte.

Definition KeyHashSize : nat := 32.

(** Modelled from the spec: [KeyHash.SetBytes] is not among the sources.
    A KeyHash is a 32-byte value and a key of the wrong length is a
    validation error (data model; error taxonomy, Validation). *)
Definition SetBytes (v : list Byte.byte) : KeyHash + error :=
  if Nat.eqb (List.length v) KeyHashSize then inl v
  else inr (ErrsNew "KeyHash wrong length" []).

End authdb.

(** ** pkg/auth/badgerauth/pb: messages *)

Module pb.

(** Modelled from the spec: the generated message types are not among the
    sources; the states are those of the data model. *)
Inductive RecordState := Live | Invalidated | Unpublished | Tombstoned.

(** Modelled from the spec: [pb.Record] is not among the sources; the
    fields are those the data model lists for a Record. *)
Record Record := {
  CreatedAtUnix : Z;
  Public : bool;
  SatelliteAddress : string;
  MacaroonHead : list Byte.byte;
  EncryptedSecretKey : list Byte.byte;
  EncryptedAccessGrant : list Byte.byte;
  ExpiresAtUnix : Z;
  InvalidatedAtUnix : Z;
  InvalidationReason : string;
  State : RecordState
}.

(** The request and response messages of the admin RPCs, by the fields
    [admin.go] reads: [Key] and [Reason]. *)
Record InvalidateRecordRequest := {
  InvalidateRecordRequest_Key : list Byte.byte;
  InvalidateRecordRequest_Reason : string
}.

Record UnpublishRecordRequest := {
  UnpublishRecordRequest_Key : list Byte.byte
}.

Record DeleteRecordRequest := {
  DeleteRecordRequest_Key : list Byte.byte
}.

Inductive InvalidateRecordResponse := mkInvalidateRecordResponse.
Inductive UnpublishRecordResponse := mkUnpublishRecordResponse.
Inductive DeleteRecordResponse := mkDeleteRecordResponse.

End pb.

(** ** pkg/auth/badgerauth: the store behind the admin service *)

Module badgerauth.

Import pb.

(** Modelled from the spec: the node identifier is not among the sources;
    the data model has it as a 16-byte value. *)
Definition NodeID : Type := list Byte.byte.

(** Modelled from the spec: the operations of a LogEntry. *)
Inductive Operation := Put | Invalidate | Unpublish | Delete.

(** Modelled from the spec: one field of a record with the value to merge
    into it, for the RecordDelta of an entry. *)
Inductive FieldValue :=
| FCreatedAtUnix (v : Z)
| FPublic (v : bool)
| FSatelliteAddress (v : string)
| FMacaroonHead (v : list Byte.byte)
| FEncryptedSecretKey (v : list Byte.byte)
| FEncryptedAccessGrant (v : list Byte.byte)
| FExpiresAtUnix (v : Z)
| FInvalidatedAtUnix (v : Z)
| FInvalidationReason (v : string).

(** Modelled from the spec: RecordDelta is the full Record for Put,
    otherwise the fields to merge. *)
Inductive RecordDelta :=
| FullRecord (r : Record)
| Fields (fs : list FieldValue).

(** Modelled from the spec: the LogEntry is not among the sources; its
    fields are NodeID, Clock (uint64), KeyHash, Operation, RecordDelta and
    Signature. *)
Record LogEntry := {
  LogEntry_NodeID : NodeID;
  LogEntry_Clock : Z;
  LogEntry_KeyHash : authdb.KeyHash;
  LogEntry_Operation : Operation;
  LogEntry_RecordDelta : RecordDelta;
  LogEntry_Signature : list Byte.byte
}.

(** What the store is given from outside and the sources do not contain:
    the signature scheme of the nodes, the canonical serialization the
    signature is computed over, the rendering of a NodeID as text, and the
    translation of store errors to RPC status errors. *)
Class Collaborators := {
  PublicKeyOf : list Byte.byte -> list Byte.byte;
  Sign : list Byte.byte -> list Byte.byte -> list Byte.byte;
  Verify : list Byte.byte -> list Byte.byte -> list Byte.byte -> bool;
  CanonicalForSigning :
    NodeID -> Z -> authdb.KeyHash -> Operation -> RecordDelta -> list Byte.byte;
  NodeID_String : NodeID -> string;
  errToRPCStatusErr : option error -> option error
}.

(** [BackupConfig] *)
Record BackupConfig := {
  Enabled : bool;
  Endpoint : string;
  Bucket : string;
  Prefix : string;
  Interval : Z;
  AccessKeyID : string;
  SecretAccessKey : string
}.

(** Modelled from the spec: the node configuration is not among the
    sources; it has the fields the embedded code reads ([config.ID],
    [config.Backup]) and the signing key of the node. *)
Record Config := {
  ID : NodeID;
  SigningKey : list Byte.byte;
  Backup : BackupConfig
}.

(** Modelled from the spec: the database handle [DB] is not among the
    sources.  The storage engine holds the record rows [r/<keyHash>], the
    log rows [l/<nodeID>/<clock>] (here in the order they were appended)
    and the clock row [m/clock]. *)
Record DB := {
  config : Config;
  records : gmap authdb.KeyHash Record;
  log : list LogEntry;
  clock : Z
}.

Definition set_Public (v : bool) (r : Record) : Record :=
  {| CreatedAtUnix := CreatedAtUnix r; Public := v;
     SatelliteAddress := SatelliteAddress r; MacaroonHead := MacaroonHead r;
     EncryptedSecretKey := EncryptedSecretKey r;
     EncryptedAccessGrant := EncryptedAccessGrant r;
     ExpiresAtUnix := ExpiresAtUnix r;
     InvalidatedAtUnix := InvalidatedAtUnix r;
     InvalidationReason := InvalidationReason r; State := State r |}.

Definition set_InvalidatedAtUnix (v : Z) (r : Record) : Record :=
  {| CreatedAtUnix := CreatedAtUnix r; Public := Public r;
     SatelliteAddress := SatelliteAddress r; MacaroonHead := MacaroonHead r;
     EncryptedSecretKey := EncryptedSecretKey r;
     EncryptedAccessGrant := EncryptedAccessGrant r;
     ExpiresAtUnix := ExpiresAtUnix r;
     InvalidatedAtUnix := v;
     InvalidationReason := InvalidationReason r; State := State r |}.

Definition set_InvalidationReason (v : string) (r : Record) : Record :=
  {| CreatedAtUnix := CreatedAtUnix r; Public := Public r;
     SatelliteAddress := SatelliteAddress r; MacaroonHead := MacaroonHead r;
     EncryptedSecretKey := EncryptedSecretKey r;
     EncryptedAccessGrant := EncryptedAccessGrant r;
     ExpiresAtUnix := ExpiresAtUnix r;
     InvalidatedAtUnix := InvalidatedAtUnix r;
     InvalidationReason := v; State := State r |}.

Definition set_State (v : RecordState) (r : Record) : Record :=
  {| CreatedAtUnix := CreatedAtUnix r; Public := Public r;
     SatelliteAddress := SatelliteAddress r; MacaroonHead := MacaroonHead r;
     EncryptedSecretKey := EncryptedSecretKey r;
     EncryptedAccessGrant := EncryptedAccessGrant r;
     ExpiresAtUnix := ExpiresAtUnix r;
     InvalidatedAtUnix := InvalidatedAtUnix r;
     InvalidationReason := InvalidationReason r; State := v |}.



Definition changed {A} `{EqDecision A} (old new : A) (f : A -> FieldValue)
  : list FieldValue :=
  if decide (old = new) then [] else [f new].

(** Modelled from the spec: the fields to merge for a mutation, those in
    which [new] differs from [old], with their new values. *)
Definition diff (old new : Record) : list FieldValue :=
  changed (CreatedAtUnix old) (CreatedAtUnix new) FCreatedAtUnix
  ++ changed (Public old) (Public new) FPublic
  ++ changed (SatelliteAddress old) (SatelliteAddress new) FSatelliteAddress
  ++ changed (MacaroonHead old) (MacaroonHead new) FMacaroonHead
  ++ changed (EncryptedSecretKey old) (EncryptedSecretKey new)
       FEncryptedSecretKey
  ++ changed (EncryptedAccessGrant old) (EncryptedAccessGrant new)
       FEncryptedAccessGrant
  ++ changed (ExpiresAtUnix old) (ExpiresAtUnix new) FExpiresAtUnix
  ++ changed (InvalidatedAtUnix old) (InvalidatedAtUnix new)
       FInvalidatedAtUnix
  ++ changed (InvalidationReason old) (InvalidationReason new)
       FInvalidationReason.

(** Modelled from the spec: the state an operation puts a record in, and
    the order in which the states dominate (Delete over Invalidate over
    Unpublish). *)
Definition stateOf (op : Operation) : RecordState :=
  match op with
  | Put => Live
  | Unpublish => Unpublished
  | Invalidate => Invalidated
  | Delete => Tombstoned
  end.

Definition rank (s : RecordState) : nat :=
  match s with
  | Live => 0
  | Unpublished => 1
  | Invalidated => 2
  | Tombstoned => 3
  end.

Definition dominate (s1 s2 : RecordState) : RecordState :=
  if Nat.ltb (rank s1) (rank s2) then s2 else s1.

Section Store.

Context `{Collaborators}.

(** Modelled from the spec: the Clock is not among the sources.  It is a
    persisted 64-bit counter and [Next()] returns the current value plus
    one. *)
Definition Next (db : DB) : Z := (clock db + 1) mod 2 ^ 64.

(** Modelled from the spec: the Log is not among the sources.
    [Append(op, keyHash, delta)] assigns the Clock, signs the canonical
    serialization of the other fields with the node's private key, writes
    the LogEntry plus any resulting Record mutation in one batch, and
    returns the new Clock. *)
Definition Append (db : DB) (op : Operation) (keyHash : authdb.KeyHash)
    (delta : RecordDelta) (mutation : option Record) : DB * Z :=
  let c := Next db in
  let nodeID := ID (config db) in
  let entry :=
    {| LogEntry_NodeID := nodeID;
       LogEntry_Clock := c;
       LogEntry_KeyHash := keyHash;
       LogEntry_Operation := op;
       LogEntry_RecordDelta := delta;
       LogEntry_Signature :=
         Sign (SigningKey (config db))
              (CanonicalForSigning nodeID c keyHash op delta) |} in
  ({| config := config db;
      records := match mutation with
                 | Some record => <[keyHash := record]> (records db)
                 | None => records db
                 end;
      log := log db ++ [entry];
      clock := c |}, c).



(** Modelled from the spec: [DB.updateRecord] is not among the sources.
    The admin operations go through the Log just like a user Put: the
    record stored under the key is read, the caller's function is run on
    it, and the mutation is appended to the log as a signed entry together
    with the record it results in.  The sources call it with the key and
    the function; the operation the entry records is that of the calling
    RPC and is passed along here.  What an update answers when no record
    is stored under the key is not described; the branch below stands for
    some error and a database left alone, and the properties of the
    admin operations are stated for stored records only. *)
Definition updateRecord (db : DB) (op : Operation) (keyHash : authdb.KeyHash)
    (fn : Record -> Record) : DB * option error :=
  match records db !! keyHash with
  | None => (db, Some (Foreign "Key not found"))
  | Some record =>
      let record' := fn record in
      let stored := set_State (dominate (State record') (stateOf op)) record' in
      (fst (Append db op keyHash (Fields (diff record record')) (Some stored)),
       None)
  end.

(** Modelled from the spec: [DB.deleteRecord] is not among the sources.
    Delete issues a Delete LogEntry and leaves a tombstone; it always
    answers ok. *)
Definition deleteRecord (db : DB) (keyHash : authdb.KeyHash)
  : DB * option error :=
  let tombstone :=
    match records db !! keyHash with
    | Some record => Some (set_State (dominate (State record) Tombstoned) record)
    | None => None
    end in
  (fst (Append db Delete keyHash (Fields []) tombstone), None).

(** The local entries of the log carry clocks up to the clock row, and the
    clock is a 64-bit counter. *)
Definition LogOrdered (db : DB) : Prop :=
  0 <= clock db < 2 ^ 64
  /\ Forall (fun e => LogEntry_NodeID e = ID (config db) ->
                      0 <= LogEntry_Clock e <= clock db) (log db).



(** *** admin.go *)

(** [type Admin struct { db *DB }]; the database behind the pointer is
    carried in the struct and handed back by every method. *)
Record Admin := {
  Admin_db : DB
}.

(** [NewAdmin] *)
Definition NewAdmin (db : DB) : Admin := {| Admin_db := db |}.

(** [Admin.InvalidateRecord]; [now] is [time.Now().Unix()]. *)
Definition InvalidateRecord (admin : Admin) (now : Z)
    (req : InvalidateRecordRequest)
  : Admin * option InvalidateRecordResponse * option error :=
  let resp := mkInvalidateRecordResponse in
  if String.eqb (InvalidateRecordRequest_Reason req) "" then
    (admin, None, Some (RPCStatusError InvalidArgument "missing reason"))
  else
    match authdb.SetBytes (InvalidateRecordRequest_Key req) with
    | inr err => (admin, None, errToRPCStatusErr (Some err))
    | inl keyHash =>
        let '(db', err) :=
          updateRecord (Admin_db admin) Invalidate keyHash
            (fun record =>
               set_InvalidationReason (InvalidateRecordRequest_Reason req)
                 (set_InvalidatedAtUnix now record)) in
        ({| Admin_db := db' |}, Some resp, errToRPCStatusErr err)
    end.

(** [Admin.UnpublishRecord] *)
Definition UnpublishRecord (admin : Admin) (req : UnpublishRecordRequest)
  : Admin * option UnpublishRecordResponse * option error :=
  let resp := mkUnpublishRecordResponse in
  match authdb.SetBytes (UnpublishRecordRequest_Key req) with
  | inr err => (admin, None, errToRPCStatusErr (Some err))
  | inl keyHash =>
      let '(db', err) :=
        updateRecord (Admin_db admin) Unpublish keyHash
          (fun record => set_Public false record) in
      ({| Admin_db := db' |}, Some resp, errToRPCStatusErr err)
  end.

(** [Admin.DeleteRecord] *)
Definition DeleteRecord (admin : Admin) (req : DeleteRecordRequest)
  : Admin * option DeleteRecordResponse * option error :=
  let resp := mkDeleteRecordResponse in
  match authdb.SetBytes (DeleteRecordRequest_Key req) with
  | inr err => (admin, None, errToRPCStatusErr (Some err))
  | inl keyHash =>
      let '(db', err) := deleteRecord (Admin_db admin) keyHash in
      ({| Admin_db := db' |}, Some resp, errToRPCStatusErr err)
  end.

End Store.

(** *** backup.go *)

(** [BackupError = errs.Class("backup")] *)
Definition BackupError : string := "backup".

(** What the read side of an [io.Pipe] yields to its consumer: the bytes
    written, then the error the write side was closed with ([io.EOF] for a
    plain close). *)
Record PipeReader := {
  PipeReader_data : list Byte.byte;
  PipeReader_closed : error
}.

(** The write side of the pipe: open, or closed with an error. *)
Inductive PipeWriter :=
| WOpen
| WClosed (err : error).

(** [w.CloseWithError(err)]: a nil error closes with [io.EOF], an earlier
    close is never overwritten, and the call always returns nil. *)
Definition CloseWithError (w : PipeWriter) (err : option error)
  : PipeWriter * option error :=
  match w with
  | WOpen => (WClosed (match err with Some e => e | None => EOF end), None)
  | WClosed _ => (w, None)
  end.

(** [minio.PutObjectOptions{}] and [minio.UploadInfo] *)
Inductive PutObjectOptions := zeroPutObjectOptions.

Record UploadInfo := {
  UploadInfo_Size : Z
}.

(** [io.ErrClosedPipe] *)
Definition ErrClosedPipe : error := Foreign "io: read/write on closed pipe".

(** The answer of one [PutObject] call, and what the client did to the
    reader before it returned: [PutObject_read] counts the bytes it took,
    [PutObject_closed] tells whether it closed the read side, and with
    which error ([r.Close()] is [r.CloseWithError(nil)]). *)
Record PutObjectResult := {
  PutObject_info : UploadInfo;
  PutObject_err : option error;
  PutObject_read : nat;
  PutObject_closed : option (option error)
}.

(** What a write gets once the read side was closed with [err]. *)
Definition writeCloseError (err : option error) : error :=
  match err with
  | Some e => e
  | None => ErrClosedPipe
  end.

(** [type Client interface { PutObject(ctx, bucketName, objectName, reader,
    objectSize, opts) (info, err) }] *)
Record Client := {
  PutObject :
    string -> string -> PipeReader -> Z -> PutObjectOptions -> PutObjectResult
}.

(** The arguments of a [PutObject] call, as recorded in the trace. *)
Record PutObjectCall := {
  bucketName : string;
  objectName : string;
  reader : PipeReader;
  objectSize : Z;
  opts : PutObjectOptions
}.

(** [sync2.Cycle] as far as [NewBackup] sets it up. *)
Record Cycle := {
  Cycle_interval : Z;
  Cycle_delayStart : bool
}.

(** [type Backup struct] *)
Record BackupJob := {
  Backup_db : DB;
  Backup_Client : Client;
  SyncCycle : Cycle;
  prefix : string
}.

(** What [stream.Backup(w, 0)] does: the bytes of the snapshot it writes
    and the error it returns when its writes are taken, and the error it
    returns when a write fails with a given error. *)
Record StreamRun := {
  Stream_output : list Byte.byte;
  Stream_err : option error;
  Stream_failed : error -> option error
}.

(** How a call of [RunOnce] ends: it returns an error (or nil), or it
    waits for ever in [group.Wait()]. *)
Inductive Outcome :=
| Returns (err : option error)
| Blocks.

(** A run of [RunOnce]: how it ends, the calls it made on the client,
    whether the goroutine of the stream has ended, and the state of the
    write side of the pipe. *)
Record RunResult := {
  returned : Outcome;
  calls : list PutObjectCall;
  streamDone : bool;
  writeSide : PipeWriter
}.

Section Backup.

Context `{Collaborators}.

(** [NewBackup] *)
Definition NewBackup (db : DB) (client : Client) : BackupJob :=
  let syncCycle :=
    {| Cycle_interval := Interval (Backup (config db));
       Cycle_delayStart := true |} in
  {| Backup_db := db;
     SyncCycle := syncCycle;
     Backup_Client := client;
     prefix := path.Join [Prefix (Backup (config db));
                          NodeID_String (ID (config db))] |}.

(** [stream.Backup(w, 0)] against the client of the pipe.  The pipe is
    synchronous: the writes end once the client has read every byte, and
    they fail once the client has closed the read side; while neither has
    happened the call does not return ([None]). *)
Definition streamBackup (stream : StreamRun) (res : PutObjectResult)
  : option (option error) :=
  if Nat.leb (List.length (Stream_output stream)) (PutObject_read res) then
    Some (Stream_err stream)
  else
    match PutObject_closed res with
    | Some err => Some (Stream_failed stream (writeCloseError err))
    | None => None
    end.

(** The function handed to [group.Go], from the point where
    [stream.Backup] has returned [err]: [return w.CloseWithError(err)]. *)
Definition streamGoroutine (err : option error) (w : PipeWriter)
  : PipeWriter * option error :=
  CloseWithError w err.

(** [Backup.RunOnce]; [t] is [time.Now().UTC()] and [stream] what the
    snapshot stream of the database produces.  The goroutine ends, and
    closes the write side, once [stream.Backup] returns; [group.Wait()]
    waits for that, the return after a failed upload does not. *)
Definition RunOnce (b : BackupJob) (t : time.Time) (stream : StreamRun)
  : RunResult :=
  let key := path.Join [prefix b; time.FormatDate t; time.FormatRFC3339 t] in
  let r :=
    {| PipeReader_data := Stream_output stream;
       PipeReader_closed :=
         match Stream_err stream with Some e => e | None => EOF end |} in
  let bucket := Bucket (Backup (config (Backup_db b))) in
  let res := PutObject (Backup_Client b) bucket key r (-1) zeroPutObjectOptions in
  let call :=
    {| bucketName := bucket; objectName := key; reader := r;
       objectSize := -1; opts := zeroPutObjectOptions |} in
  let '(w, waited, done) :=
    match streamBackup stream res with
    | Some err =>
        let '(w, waited) := streamGoroutine err WOpen in (w, waited, true)
    | None => (WOpen, None, false)
    end in
  match PutObject_err res with
  | Some err =>
      {| returned := Returns (Some (ClassNew BackupError "upload object: %w" err));
         calls := [call]; streamDone := done; writeSide := w |}
  | None =>
      {| returned := if done then Returns (ClassWrapErr BackupError waited)
                     else Blocks;
         calls := [call]; streamDone := done; writeSide := w |}
  end.

End Backup.

End badgerauth.

(** ** pkg/auth: OpenKV *)

Module auth.

(** The stores behind [authdb.KV].  Their packages are not among the
    sources; a store is known here by the constructor that made it and
    what it was made from. *)
Record sqlauth_Options := {
  ApplicationName : string
}.

Inductive KV (SQL Badger Migration : Type) :=
| MemauthKV                                  (* memauth.New() *)
| SqlauthKV (kv : SQL)                       (* sqlauth.Open(...) *)
| BadgerauthKV (kv : Badger)                 (* badgerauth.New(...) *)
| MigrationKV (src : SQL) (dst : Badger) (cfg : Migration).
                                             (* badgerauthmigration.New(log, src, dst, cfg) *)

Arguments MemauthKV {SQL Badger Migration}.
Arguments SqlauthKV {SQL Badger Migration} kv.
Arguments BadgerauthKV {SQL Badger Migration} kv.
Arguments MigrationKV {SQL Badger Migration} src dst cfg.

Section OpenKV.

(** Handles of the SQL and the badger store, their configurations. *)
Variables SQL Badger NodeConfig : Type.

(** [badgerauthmigration.Config] *)
Record MigrationConfig := {
  SourceSQLAuthKVBackend : string
}.

(** [auth.Config], the fields [OpenKV] reads. *)
Record Config := {
  KVBackend : string;
  Node : NodeConfig;
  NodeMigration : MigrationConfig
}.

(** [dbutil.SplitConnStr]: driver, source and implementation, or an error. *)
Variable SplitConnStr : string -> (string * string * string) + error.
(** [sqlauth.Open(ctx, log, connstr, opts)] *)
Variable sqlauth_Open : string -> sqlauth_Options -> SQL + error.
(** [badgerauth.New(log, config)] *)
Variable badgerauth_New : NodeConfig -> Badger + error.

Definition Store : Type := KV SQL Badger MigrationConfig.

(** [OpenKV].  Where the source returns the pair of [sqlauth.Open] as it
    is, a failed open gives no store here. *)
Definition OpenKV (config : Config) : option Store * option error :=
  match SplitConnStr (KVBackend config) with
  | inr err => (None, Some err)
  | inl (driver, _, _) =>
      if String.eqb driver "memory" then
        (Some MemauthKV, None)
      else if String.eqb driver "pgxcockroach" || String.eqb driver "postgres"
              || String.eqb driver "cockroach" || String.eqb driver "pgx" then
        match sqlauth_Open (KVBackend config)
                {| ApplicationName := "authservice" |} with
        | inl kv => (Some (SqlauthKV kv), None)
        | inr err => (None, Some err)
        end
      else if String.eqb driver "badger" then
        match badgerauth_New (Node config) with
        | inr err => (None, Some err)
        | inl kv =>
            if negb (String.eqb (SourceSQLAuthKVBackend (NodeMigration config)) "")
            then
              match sqlauth_Open (SourceSQLAuthKVBackend (NodeMigration config))
                      {| ApplicationName :=
                           "authservice (sqlauth->badgerauth migration)" |} with
              | inr err => (None, Some err)
              | inl src =>
                  (Some (MigrationKV src kv (NodeMigration config)), None)
              end
            else (Some (BadgerauthKV kv), None)
        end
      else
        (None, Some (ErrsNew "unknown scheme: %q" [KVBackend config]))
  end.

End OpenKV.

Arguments Config NodeConfig : clear implicits.
Arguments KVBackend {NodeConfig} _.
Arguments Node {NodeConfig} _.
Arguments NodeMigration {NodeConfig} _.
Arguments OpenKV {SQL Badger NodeConfig} _ _ _ _.

End auth.

(** ** Sample values *)

Module sample.

Import pb badgerauth.

(** A stand-in for the collaborators: a signature is the key followed by
    the message, and every error becomes an Internal status error. *)
#[local] Instance collaborators : Collaborators := {|
  PublicKeyOf := fun sk => sk;
  Sign := fun sk m => sk ++ m;
  Verify := fun pk m sig => bool_decide (sig = pk ++ m);
  CanonicalForSigning := fun nodeID c keyHash op delta => nodeID ++ keyHash;
  NodeID_String := string_of_list_byte;
  errToRPCStatusErr := fun err =>
    match err with
    | None => None
    | Some _ => Some (RPCStatusError Internal "internal")
    end
|}.

Definition key : authdb.KeyHash := List.repeat Byte.x01 32.

Definition shortKey : list Byte.byte := [Byte.x01; Byte.x02].

Definition record : Record :=
  {| CreatedAtUnix := 1650000000; Public := true;
     SatelliteAddress := "sat.example:7777"; MacaroonHead := [Byte.x0a];
     EncryptedSecretKey := [Byte.x0b]; EncryptedAccessGrant := [Byte.x0c];
     ExpiresAtUnix := 0; InvalidatedAtUnix := 0; InvalidationReason := "";
     State := Live |}.

Definition backupConfig : BackupConfig :=
  {| Enabled := true; Endpoint := "s3.example"; Bucket := "mybucket";
     Prefix := "myprefix"; Interval := 3600; AccessKeyID := "id";
     SecretAccessKey := "secret" |}.

Definition nodeConfig : badgerauth.Config :=
  {| ID := list_byte_of_string "mynodeid"; SigningKey := [Byte.x2a];
     Backup := backupConfig |}.

Definition db : DB :=
  {| config := nodeConfig; records := {[ key := record ]}; log := [];
     clock := 0 |}.

Definition admin : Admin := NewAdmin db.

Definition now : Z := 1650000042.

(** A client that takes the whole stream, one that fails at once, and one
    that closes the reader and answers without an error. *)
Definition client : Client :=
  {| PutObject := fun _ _ r _ _ =>
       {| PutObject_info :=
            {| UploadInfo_Size := Z.of_nat (List.length (PipeReader_data r)) |};
          PutObject_err := None;
          PutObject_read := List.length (PipeReader_data r);
          PutObject_closed := None |} |}.

Definition failingClient : Client :=
  {| PutObject := fun _ _ _ _ _ =>
       {| PutObject_info := {| UploadInfo_Size := 0 |};
          PutObject_err := Some (Foreign "connection refused");
          PutObject_read := 0;
          PutObject_closed := None |} |}.

Definition closingClient : Client :=
  {| PutObject := fun _ _ _ _ _ =>
       {| PutObject_info := {| UploadInfo_Size := 0 |};
          PutObject_err := None;
          PutObject_read := 0;
          PutObject_closed := Some None |} |}.

Definition stream : StreamRun :=
  {| Stream_output := [Byte.x01; Byte.x02; Byte.x03]; Stream_err := None;
     Stream_failed := fun e => Some e |}.

Definition t : time.Time :=
  {| time.Year := 2022; time.Month := 4; time.Day := 13; time.Hour := 3;
     time.Minute := 42; time.Second := 7; time.Nanosecond := 123456789 |}.

(** Stand-ins for the connection-string parser and the store
    constructors: the driver is the text before the first colon, every
    store opens. *)
Fixpoint beforeColon (s : string) : string :=
  match s with
  | EmptyString => ""
  | String c s' => if Ascii.eqb c ":" then "" else String c (beforeColon s')
  end.

Definition SplitConnStr (s : string) : (string * string * string) + error :=
  if String.eqb (beforeColon s) s
  then inr (ErrsNew "could not parse DB URL %s" [s])
  else inl (beforeColon s, s, beforeColon s).

Definition sqlauth_Open (connstr : string) (o : auth.sqlauth_Options)
  : string + error := inl connstr.

Definition badgerauth_New (c : badgerauth.Config) : badgerauth.DB + error :=
  inl {| config := c; records := ∅; log := []; clock := 0 |}.

Definition authConfig (backend source : string)
  : auth.Config badgerauth.Config :=
  {| auth.KVBackend := backend;
     auth.Node := nodeConfig;
     auth.NodeMigration := {| auth.SourceSQLAuthKVBackend := source |} |}.

End sample.

(** ** flusherDelegator: reading the trace *)

Module middleware_trace.

Import middleware.

(** The status codes delegated to the wrapped writer, in order. *)
Fixpoint delegated (evs : list Event) : list Z :=
  match evs with
  | [] => []
  | RWWriteHeader code :: evs' => code :: delegated evs'
  | _ :: evs' => delegated evs'
  end.

(** The status codes [atWriteHeaderFunc] was called with. *)
Fixpoint measured (evs : list Event) : list Z :=
  match evs with
  | [] => []
  | AtWriteHeader code :: evs' => code :: measured evs'
  | _ :: evs' => measured evs'
  end.

(** The status codes [atTimeToFirstByteFunc] was called with. *)
Fixpoint firstByte (evs : list Event) : list Z :=
  match evs with
  | [] => []
  | AtTimeToFirstByte code :: evs' => code :: firstByte evs'
  | _ :: evs' => firstByte evs'
  end.

(** The status codes the handler passed to [WriteHeader]. *)
Fixpoint requested (cs : list Call) : list Z :=
  match cs with
  | [] => []
  | CallWriteHeader code :: cs' => code :: requested cs'
  | _ :: cs' => requested cs'
  end.

(** The status code a first call sends when no header was written yet:
    its own for [WriteHeader], [http.StatusOK] for [Write]. *)
Definition headerOf (c : Call) : Z :=
  match c with
  | CallWriteHeader code => code
  | _ => StatusOK
  end.

(** The status codes a call has delegated when no header was written yet. *)
Definition sentBy (c : Call) : list Z :=
  match c with
  | CallWriteHeader code => [code]
  | _ => [StatusOK]
  end.

(** A call that can come before the first [Write] without ending the
    run: any [WriteHeader], and a [Flush] when the wrapped writer can
    flush. *)
Definition beforeFirstWrite (flusher : bool) (c : Call) : bool :=
  match c with
  | CallWriteHeader _ => true
  | CallFlush => flusher
  | CallWrite _ _ _ => false
  end.

(** A delegator between two requests of the handler: the callbacks it was
    built with, nothing written. *)
Definition built (flusher atHeader atFirstByte : bool) : flusherDelegator :=
  {| isFlusher := flusher;
     atWriteHeaderFunc := atHeader;
     atTimeToFirstByteFunc := atFirstByte;
     status := 0;
     written := 0;
     wroteHeader := false;
     observedTimeToFirstByte := false |}.

End middleware_trace.

(** ** More sample values *)

Module sample_more.

(** The sample node with the default, empty, backup prefix. *)
Definition dbNoPrefix : badgerauth.DB :=
  {| badgerauth.config :=
       {| badgerauth.ID := badgerauth.ID sample.nodeConfig;
          badgerauth.SigningKey := badgerauth.SigningKey sample.nodeConfig;
          badgerauth.Backup :=
            {| badgerauth.Enabled := true;
               badgerauth.Endpoint := "s3.example";
               badgerauth.Bucket := "mybucket";
               badgerauth.Prefix := "";
               badgerauth.Interval := 3600;
               badgerauth.AccessKeyID := "id";
               badgerauth.SecretAccessKey := "secret" |} |};
     badgerauth.records := ∅;
     badgerauth.log := [];
     badgerauth.clock := 0 |}.

End sample_more.

(** ** Reading the printed times *)

Module time_digits.

Import time.

(** A wall-clock reading with its fields in range, the year in four
    digits. *)
Definition valid (t : Time) : Prop :=
  0 <= Year t <= 9999 /\ 1 <= Month t <= 12 /\ 1 <= Day t <= 31
  /\ 0 <= Hour t <= 23 /\ 0 <= Minute t <= 59 /\ 0 <= Second t <= 59.

(** The reading with what is below the second dropped,
    [t.Truncate(time.Second)]. *)
Definition truncateSecond (t : Time) : Time :=
  {| Year := Year t; Month := Month t; Day := Day t; Hour := Hour t;
     Minute := Minute t; Second := Second t; Nanosecond := 0 |}.

(** The decimal digit [k], for [k] from 0 to 9. *)
Definition digitChar (k : Z) : ascii := ascii_of_nat (48 + Z.to_nat k).

(** A number below 100 in two digits, one below 10000 in four. *)
Definition two (x : Z) : string :=
  String (digitChar (x / 10)) (String (digitChar (x mod 10)) "").

Definition four (x : Z) : string :=
  String (digitChar (x / 1000))
    (String (digitChar (x / 100 mod 10))
       (String (digitChar (x / 10 mod 10))
          (String (digitChar (x mod 10)) ""))).

End time_digits.

(** ** The backup job: the call a run makes *)

Module backup_call.

Import badgerauth.

(** The answer of the client to the [PutObject] call of a run. *)
Definition upload (b : BackupJob) (t : time.Time) (stream : StreamRun)
  : PutObjectResult :=
  PutObject (Backup_Client b) (Bucket (Backup (config (Backup_db b))))
    (path.Join [prefix b; time.FormatDate t; time.FormatRFC3339 t])
    {| PipeReader_data := Stream_output stream;
       PipeReader_closed :=
         match Stream_err stream with Some e => e | None => EOF end |}
    (-1) zeroPutObjectOptions.

(** The object key of a run. *)
Definition objectKey (b : BackupJob) (t : time.Time) (stream : StreamRun)
  : string :=
  match calls (RunOnce b t stream) with
  | call :: _ => objectName call
  | [] => ""
  end.

End backup_call.

(** ** errs: groups of errors, and cancellation *)

Module errs.

Section Group.

(** [combinedError(group)]: the error a group of errors that is not empty
    turns into (the package is not among the sources). *)
Variable combinedError : list error -> error.

(** [Group.Add(errs...)]: the errors that are not nil are appended. *)
Definition Add (group : list error) (errs : list (option error)) : list error :=
  fold_left (fun group err =>
               match err with
               | Some e => group ++ [e]
               | None => group
               end) errs group.

(** [Group.Err()] *)
Definition Err (group : list error) : option error :=
  match group with
  | [] => None
  | _ => Some (combinedError group)
  end.

(** [errs.Combine(errs...)] *)
Definition Combine (errs : list (option error)) : option error :=
  Err (Add [] errs).

End Group.

Section Canceled.

(** [errors.Is(err, context.Canceled)] *)
Variable isCanceled : error -> bool.

(** [errs2.IgnoreCanceled] *)
Definition IgnoreCanceled (originalError : option error) : option error :=
  match originalError with
  | Some e => if isCanceled e then None else Some e
  | None => None
  end.

End Canceled.

End errs.

(** ** cmd/authservice: the [run] and [run-migration] commands *)

Module authservice.

Import auth.

(** How a command ends: it returns, a nil store is used, or [log.Fatal]
    ends the process. *)
Inductive Result :=
| Returns (err : option error)
| Panics
| Exits.

(** The calls a command makes itself, in the order it makes them.
    [EvGo] is [g.Go]: it starts the goroutine that calls [kv.Run].  That
    call is not among these events: it runs beside the command from
    [EvGo] on, and only [EvWait], [g.Wait()], waits for its end. *)
Inductive Event :=
| EvOpenKV
| EvGo
| EvMigrateToLatest
| EvCancel
| EvWait
| EvKVClose
| EvInitMetrics
| EvInitTracer
| EvInitMeter
| EvServeMetrics
| EvNew
| EvPeerRun
| EvPeerClose.

#[global] Instance Event_eq_dec : EqDecision Event.
Proof. solve_decision. Defined.

(** How often a call was made. *)
Definition calls (e : Event) (trace : list Event) : nat :=
  length (filter (fun e' => bool_decide (e' = e)) trace).

Section Commands.

Variables SQL Badger NodeConfig Peer : Type.

Variable SplitConnStr : string -> (string * string * string) + error.
Variable sqlauth_Open : string -> sqlauth_Options -> SQL + error.
Variable badgerauth_New : NodeConfig -> Badger + error.

Variable combinedError : list error -> error.
Variable isCanceled : error -> bool.
(** [errs.Wrap(err)] for an [err] that is not nil *)
Variable errs_Wrap : error -> error.
(** [errs.New(format, err)], the format ending in %w *)
Variable errs_New_w : string -> error -> error.

(** The store: the name of its type (%T), what [Run] and [Close] return,
    and what [MigrateToLatest] returns when the type has that method. *)
Variable typeName : Store SQL Badger -> string.
Variable kv_Run : Store SQL Badger -> option error.
Variable kv_Close : Store SQL Badger -> option error.
Variable kv_MigrateToLatest : Store SQL Badger -> option (option error).

(** [cmdMigrationRun].  The deferred calls run in the reverse order:
    the store is closed, then the context is cancelled.  Only the last
    return waits for the goroutine; [kv_Run] is what [kv.Run] has
    returned by then. *)
Definition cmdMigrationRun (runCfg : Config NodeConfig) : Result * list Event :=
  match OpenKV SplitConnStr sqlauth_Open badgerauth_New runCfg with
  | (_, Some err) =>
      (Returns (Some (errs_Wrap err)), [EvOpenKV; EvCancel])
  | (None, None) =>
      (Panics, [EvOpenKV; EvGo])
  | (Some kv, None) =>
      match kv_MigrateToLatest kv with
      | None =>
          (Returns
             (errs.Combine combinedError
                [Some (ErrsNew "database backend %T does not support migrations"
                         [typeName kv]);
                 kv_Close kv]),
           [EvOpenKV; EvGo; EvKVClose; EvCancel])
      | Some (Some err) =>
          (Returns
             (errs.Combine combinedError [Some (errs_Wrap err); kv_Close kv]),
           [EvOpenKV; EvGo; EvMigrateToLatest; EvKVClose; EvCancel])
      | Some None =>
          (Returns
             (errs.Combine combinedError
                [errs.IgnoreCanceled isCanceled (kv_Run kv); kv_Close kv]),
           [EvOpenKV; EvGo; EvMigrateToLatest; EvCancel; EvWait;
            EvKVClose; EvCancel])
      end
  end.

(** What the telemetry set-up and the peer answer. *)
Variable InitMetricsWithHostname : option error.
Variable otlptrace_New : option error.
Variable resource_New : option error.
Variable otelprom_New : option error.
Variable auth_New : Config NodeConfig -> Peer + error.
Variable p_Run : Peer -> option error.
Variable p_Close : Peer -> option error.

(** [initTracer] *)
Definition initTracer : option error :=
  match otlptrace_New with
  | Some err => Some err
  | None =>
      match resource_New with
      | Some err => Some err
      | None => None
      end
  end.

(** [initMeter]: [log.Fatal] when the exporter cannot be made. *)
Definition initMeter : Result * list Event :=
  match otelprom_New with
  | Some _ => (Exits, [EvInitMeter])
  | None => (Returns None, [EvInitMeter; EvServeMetrics])
  end.

(** [cmdRun]; [migration] is [runCfg.Migration]. *)
Definition cmdRun (migration : bool) (runCfg : Config NodeConfig)
  : Result * list Event :=
  let '(migrated, t0) :=
    if migration then cmdMigrationRun runCfg else (Returns None, []) in
  match migrated with
  | Panics => (Panics, t0)
  | Exits => (Exits, t0)
  | Returns (Some err) => (Returns (Some err), t0)
  | Returns None =>
      match InitMetricsWithHostname with
      | Some err =>
          (Returns
             (Some (errs_New_w "failed to initialize telemetry batcher: %w" err)),
           t0 ++ [EvInitMetrics])
      | None =>
          match initTracer with
          | Some err =>
              (Returns
                 (Some (errs_New_w "failed to initialize open telemetry: %w"
                          err)),
               t0 ++ [EvInitMetrics; EvInitTracer])
          | None =>
              let '(metered, t1) := initMeter in
              let t := t0 ++ [EvInitMetrics; EvInitTracer] ++ t1 in
              match metered with
              | Panics => (Panics, t)
              | Exits => (Exits, t)
              | Returns (Some err) =>
                  (Returns
                     (Some (errs_New_w
                              "failed to initialize open telemetry: %w" err)),
                   t)
              | Returns None =>
                  match auth_New runCfg with
                  | inr err => (Returns (Some err), t ++ [EvNew])
                  | inl p =>
                      (Returns
                         (errs.Combine combinedError
                            [errs.IgnoreCanceled isCanceled (p_Run p);
                             p_Close p]),
                       t ++ [EvNew; EvPeerRun; EvPeerClose])
                  end
              end
          end
      end
  end.

End Commands.

(** What [cmdSetup] does to the file system. *)
Inductive SetupCall :=
| CallMkdirAll (dir : string)
| CallSaveConfig (path : string).

Section Setup.

Variable filepath_Abs : string -> string + error.
(** [fpath.IsValidSetupDir], whose error [cmdSetup] drops *)
Variable IsValidSetupDir : string -> bool.
Variable MkdirAll : string -> option error.
Variable SaveConfig : string -> option error.
Variable filepath_Join : string -> string -> string.

(** [cmdSetup] *)
Definition cmdSetup (confDir : string) : option error * list SetupCall :=
  match filepath_Abs confDir with
  | inr err => (Some err, [])
  | inl setupDir =>
      if negb (IsValidSetupDir setupDir) then
        (Some (ErrsNew "configuration already exists (%v)" [setupDir]), [])
      else
        match MkdirAll setupDir with
        | Some err => (Some err, [CallMkdirAll setupDir])
        | None =>
            (SaveConfig (filepath_Join setupDir "config.yaml"),
             [CallMkdirAll setupDir;
              CallSaveConfig (filepath_Join setupDir "config.yaml")])
        end
  end.

End Setup.

End authservice.

(** ** cmd/gateway-mt: looking for a boolean flag before the flags are parsed *)

Module gateway.

(** [argHasPrefix(format, flagName)] of the loop body, the format applied:
    [strings.HasPrefix(arg, prefix)]. *)
Definition argHasPrefix (arg prefix : string) : bool :=
  String.prefix prefix arg.

(** The loop of [findBoolFlagEarly] from one argument on; [rest] holds
    [os.Args[i+1:]]. *)
Fixpoint findBoolFlagEarlyFrom (flagName : string) (args : list string)
  : bool :=
  match args with
  | [] => false
  | arg :: rest =>
      if negb (argHasPrefix arg ("--" +:+ flagName)) then
        findBoolFlagEarlyFrom flagName rest
      else if match rest with
              | next :: _ => String.eqb next "false"
              | [] => false
              end then
        false
      else if negb (argHasPrefix arg ("--" +:+ flagName +:+ "=false")) then
        true
      else
        findBoolFlagEarlyFrom flagName rest
  end.

(** [findBoolFlagEarly], the arguments of the process made explicit. *)
Definition findBoolFlagEarly (os_Args : list string) (flagName : string)
  : bool :=
  findBoolFlagEarlyFrom flagName os_Args.

End gateway.

(** ** pkg/linksharing: closing the peer, and the event of a request *)

Module linksharing.

Inductive CloseCall :=
| ServerShutdown
| MapperClose.

Section Peer.

(** [*httpserver.Server] and [*objectmap.IPDB] *)
Variables httpserver_Server objectmap_IPDB : Type.

Record Peer := {
  Mapper : option objectmap_IPDB;
  Server : option httpserver_Server
}.

Variable combinedError : list error -> error.
Variable Shutdown : httpserver_Server -> option error.
Variable IPDB_Close : objectmap_IPDB -> option error.

(** [Peer.Close], with the calls it makes. *)
Definition Close (peer : Peer) : option error * list CloseCall :=
  let '(errlist, calls) :=
    match Server peer with
    | Some server => (errs.Add [] [Shutdown server], [ServerShutdown])
    | None => ([], [])
    end in
  let '(errlist, calls) :=
    match Mapper peer with
    | Some mapper =>
        (errs.Add errlist [IPDB_Close mapper], calls ++ [MapperClose])
    | None => (errlist, calls)
    end in
  (errs.Err combinedError errlist, calls).

End Peer.

Arguments Mapper {httpserver_Server objectmap_IPDB} _.
Arguments Server {httpserver_Server objectmap_IPDB} _.

Section New.

Variables httpserver_Server objectmap_IPDB : Type.
(** [httpserver.Config], [sharing.Config], [*maxminddb.Reader],
    [*sharing.Handler] and [http.Handler] *)
Variables httpserver_Config sharing_Config maxminddb_Reader : Type.
Variables sharing_Handler http_Handler : Type.

(** [type Config struct] *)
Record Config := {
  Config_Server : httpserver_Config;
  Config_Handler : sharing_Config;
  GeoLocationDB : string
}.

(** [errs.New(format, err)], the format ending in %w *)
Variable errs_New_w : string -> error -> error.
Variable maxminddb_Open : string -> maxminddb_Reader + error.
Variable objectmap_NewIPDB : maxminddb_Reader -> objectmap_IPDB.
Variable sharing_NewHandler :
  option objectmap_IPDB -> sharing_Config -> sharing_Handler + error.
Variable otelhttp_NewHandler : sharing_Handler -> http_Handler.
Variable AddRequestID : http_Handler -> http_Handler.
Variable httpserver_New :
  http_Handler -> httpserver_Config -> httpserver_Server + error.

(** [New] *)
Definition New (config : Config)
  : option (Peer httpserver_Server objectmap_IPDB) * option error :=
  let mapper :=
    if negb (String.eqb (GeoLocationDB config) "") then
      match maxminddb_Open (GeoLocationDB config) with
      | inr err =>
          inr (errs_New_w "unable to open geo location db: %w" err)
      | inl reader => inl (Some (objectmap_NewIPDB reader))
      end
    else inl None in
  match mapper with
  | inr err => (None, Some err)
  | inl mapper =>
      match sharing_NewHandler mapper (Config_Handler config) with
      | inr err => (None, Some (errs_New_w "unable to create handler: %w" err))
      | inl handle =>
          let handleWithTracing := otelhttp_NewHandler handle in
          let handleWithRequestID := AddRequestID handleWithTracing in
          match httpserver_New handleWithRequestID (Config_Server config) with
          | inr err =>
              (None,
               Some (errs_New_w "unable to create httpserver: %w" err))
          | inl server =>
              (Some {| Mapper := mapper; Server := Some server |}, None)
          end
      end
  end.

End New.

(** [useragent.Entry] *)
Record Entry := {
  Product : string;
  Version : string;
  Comment : string
}.

(** The user-agent attribute of [CollectEvent], from what
    [useragent.ParseEntries] returned. *)
Definition product (agents : list Entry) (err : option error) : string :=
  match err, agents with
  | None, agent :: _ =>
      if negb (String.eqb (Product agent) "") then
        if (32 <? String.length (Product agent))%nat
        then String.substring 0 32 (Product agent)
        else Product agent
      else "unknown"
  | _, _ => "unknown"
  end.

End linksharing.

(** A run of the commands on the memory store: the store migrates, its
    [Run] ends by cancellation, the peer runs and closes without error. *)
Module sample_commands.

Import authservice.

Definition isCanceled (e : error) : bool :=
  match e with
  | Foreign descr => String.eqb descr "context canceled"
  | _ => false
  end.

Definition migrationRun : Result * list Event :=
  cmdMigrationRun string badgerauth.DB badgerauth.Config
    sample.SplitConnStr sample.sqlauth_Open sample.badgerauth_New
    (fun _ => Foreign "combined") isCanceled
    (fun e => e) (fun _ => "*memauth.KV")
    (fun _ => Some (Foreign "context canceled")) (fun _ => None)
    (fun _ => Some None)
    (sample.authConfig "memory://" "").

Definition run (otelprom_New : option error) (migration : bool)
  : Result * list Event :=
  cmdRun string badgerauth.DB badgerauth.Config unit
    sample.SplitConnStr sample.sqlauth_Open sample.badgerauth_New
    (fun _ => Foreign "combined") isCanceled
    (fun e => e) (fun _ e => e) (fun _ => "*memauth.KV")
    (fun _ => Some (Foreign "context canceled")) (fun _ => None)
    (fun _ => Some None)
    None None None otelprom_New
    (fun _ => inl tt) (fun _ => None) (fun _ => None)
    migration (sample.authConfig "memory://" "").

End sample_commands.

(** * Properties *)

(** ** Machine integers *)

Lemma wrap64_id x : in_int64 x -> wrap64 x = x.
Proof.
  unfold in_int64, wrap64; intros Hx.
  rewrite Z.mod_small by lia. lia.
Qed.

Lemma wrap64_range x : in_int64 (wrap64 x).
Proof.
  unfold in_int64, wrap64.
  pose proof (Z.mod_pos_bound (x + 2 ^ 63) (2 ^ 64) ltac:(lia)). lia.
Qed.

Lemma wrap64_add_l x y : wrap64 (wrap64 x + y) = wrap64 (x + y).
Proof.
  unfold wrap64.
  replace ((x + 2 ^ 63) mod 2 ^ 64 - 2 ^ 63 + y + 2 ^ 63)
    with ((x + 2 ^ 63) mod 2 ^ 64 + y) by lia.
  rewrite Zplus_mod_idemp_l. f_equal. f_equal. lia.
Qed.

(** ** Go's [path] package *)

Module path_facts.

Import path.

Lemma append_nil_l (t : string) : "" +:+ t = t.
Proof. reflexivity. Qed.

Lemma append_cons c (s t : string) : String c s +:+ t = String c (s +:+ t).
Proof. reflexivity. Qed.

Lemma append_nil_r (s : string) : s +:+ "" = s.
Proof.
  induction s as [| c s IH]; [reflexivity |].
  rewrite append_cons, IH. reflexivity.
Qed.

Lemma append_assoc (s t u : string) : (s +:+ t) +:+ u = s +:+ (t +:+ u).
Proof.
  induction s as [| c s IH]; [reflexivity |].
  rewrite !append_cons, IH. reflexivity.
Qed.

Lemma append_eq_nil (s t : string) : s +:+ t = "" -> s = "" /\ t = "".
Proof.
  destruct s; [rewrite append_nil_l; auto | rewrite append_cons; discriminate].
Qed.

Lemma split_nonempty (s : string) : split s <> [].
Proof.
  induction s as [| c s IH]; cbn; [discriminate |].
  destruct (Ascii.eqb c slash); [discriminate |].
  destruct (split s); [contradiction | discriminate].
Qed.

Lemma split_noSlash (s : string) : noSlash s = true -> split s = [s].
Proof.
  induction s as [| c s IH]; cbn; [reflexivity |].
  intros [Hc Hs]%andb_true_iff. apply negb_true_iff in Hc. rewrite Hc.
  rewrite (IH Hs). reflexivity.
Qed.

Lemma split_all_noSlash (s : string) :
  List.Forall (fun e => noSlash e = true) (split s).
Proof.
  induction s as [| c s IH]; cbn; [repeat constructor |].
  destruct (Ascii.eqb c slash) eqn:Hc; [constructor; [reflexivity | exact IH] |].
  destruct (split s) as [| h tl]; [repeat constructor; cbn; now rewrite Hc |].
  inversion IH as [| ? ? Hh Htl]; subst.
  constructor; [cbn; now rewrite Hc, Hh | exact Htl].
Qed.

Lemma split_slash (t : string) : split (String slash t) = "" :: split t.
Proof. reflexivity. Qed.

(** Cutting a path that was put together with a slash. *)
Lemma split_app (s t : string) :
  split (s +:+ String slash t) = split s ++ split t.
Proof.
  induction s as [| c s IH]; [reflexivity |].
  rewrite append_cons. cbn.
  destruct (Ascii.eqb c slash); [now rewrite IH |].
  rewrite IH. pose proof (split_nonempty s) as Hne.
  destruct (split s); [contradiction | reflexivity].
Qed.

Lemma split_join (l : list string) :
  l <> [] -> List.Forall (fun e => noSlash e = true) l -> split (join l) = l.
Proof.
  induction l as [| e l IH]; intros Hne Hall; [contradiction |].
  inversion Hall as [| ? ? He Hl]; subst.
  destruct l as [| e' l]; [apply split_noSlash; exact He |].
  change (join (e :: e' :: l)) with (e +:+ String slash (join (e' :: l))).
  rewrite split_app, (split_noSlash e He), IH; [reflexivity | discriminate | exact Hl].
Qed.

Lemma join_app (l1 l2 : list string) :
  l1 <> [] -> l2 <> [] ->
  join (l1 ++ l2) = join l1 +:+ String slash (join l2).
Proof.
  induction l1 as [| e l1 IH]; intros H1 H2; [contradiction |].
  destruct l1 as [| e' l1].
  - cbn. destruct l2; [contradiction | reflexivity].
  - change (join ((e :: e' :: l1) ++ l2))
      with (e +:+ String slash (join ((e' :: l1) ++ l2))).
    rewrite IH by (discriminate || assumption).
    change (join (e :: e' :: l1)) with (e +:+ String slash (join (e' :: l1))).
    rewrite append_assoc. reflexivity.
Qed.

Lemma rooted_app (s t : string) : s <> "" -> rooted (s +:+ t) = rooted s.
Proof. destruct s; [contradiction | reflexivity]. Qed.

Lemma element_inv e :
  element e = true -> noSlash e = true /\ e <> "" /\ e <> ".".
Proof.
  unfold element. intros [[H1 H2]%andb_true_iff H3]%andb_true_iff.
  apply negb_true_iff, String.eqb_neq in H2, H3. auto.
Qed.

Lemma element_intro e :
  noSlash e = true -> e <> "" -> e <> "." -> element e = true.
Proof.
  intros H1 H2 H3. unfold element. rewrite H1.
  apply String.eqb_neq in H2, H3. now rewrite H2, H3.
Qed.

Lemma element_not_rooted e : element e = true -> rooted e = false.
Proof.
  intros (Hs & Hne & _)%element_inv. destruct e as [| c e]; [reflexivity |].
  cbn in *. apply andb_true_iff in Hs as [Hc _]. now apply negb_true_iff.
Qed.

(** [Clean] keeps its output in shape. *)
Lemma cleanStep_cleanOut r out e :
  noSlash e = true -> cleanOut r out = true ->
  cleanOut r (cleanStep r out e) = true.
Proof.
  intros He Hout. unfold cleanStep.
  destruct (String.eqb_spec e ""); [exact Hout |].
  destruct (String.eqb_spec e "."); [exact Hout |].
  destruct (String.eqb_spec e "..") as [-> | Hdd].
  - destruct out as [| top below].
    + destruct r; reflexivity.
    + destruct (String.eqb_spec top "..") as [-> | Htop].
      * destruct r; [exact Hout |]. cbn in *. rewrite Hout. reflexivity.
      * cbn in Hout. apply andb_true_iff in Hout as [Hout _].
        apply andb_true_iff in Hout as [_ Hout]. exact Hout.
  - cbn. rewrite element_intro by assumption. rewrite Hout.
    apply String.eqb_neq in Hdd. now rewrite Hdd.
Qed.

Lemma fold_cleanOut r l : forall out,
  List.Forall (fun e => noSlash e = true) l -> cleanOut r out = true ->
  cleanOut r (fold_left (cleanStep r) l out) = true.
Proof.
  induction l as [| e l IH]; intros out Hl Hout; cbn; [exact Hout |].
  inversion Hl; subst. apply IH; [assumption |].
  apply cleanStep_cleanOut; assumption.
Qed.

(** Running [Clean] over its own output writes the same output. *)
Lemma cleanStep_top r e below :
  cleanOut r (e :: below) = true -> cleanStep r below e = e :: below.
Proof.
  cbn. intros [[He Hb]%andb_true_iff Hdd]%andb_true_iff.
  apply element_inv in He as (_ & Hne & Hnd).
  unfold cleanStep.
  apply String.eqb_neq in Hne, Hnd. rewrite Hne, Hnd.
  destruct (String.eqb e "..") eqn:Hedd; [| reflexivity].
  apply andb_true_iff in Hdd as [Hr Htop]. apply negb_true_iff in Hr. subst r.
  destruct below as [| b below]; [reflexivity |]. now rewrite Htop.
Qed.

Lemma cleanOut_tail r e below :
  cleanOut r (e :: below) = true -> cleanOut r below = true.
Proof.
  cbn. intros [[_ Hb]%andb_true_iff _]%andb_true_iff. exact Hb.
Qed.

Lemma fold_rev_cleanOut r out :
  cleanOut r out = true -> fold_left (cleanStep r) (rev out) [] = out.
Proof.
  induction out as [| e below IH]; intros Hout; [reflexivity |].
  cbn [rev]. rewrite fold_left_app. cbn.
  rewrite IH by (eapply cleanOut_tail; exact Hout).
  apply cleanStep_top. exact Hout.
Qed.

Lemma cleanOut_elements r out :
  cleanOut r out = true -> List.Forall (fun e => element e = true) out.
Proof.
  induction out as [| e below IH]; intros Hout; constructor.
  - cbn in Hout. apply andb_true_iff in Hout as [Hout _].
    apply andb_true_iff in Hout as [He _]. exact He.
  - apply IH. eapply cleanOut_tail; exact Hout.
Qed.

Lemma join_head_rooted e l : e <> "" -> rooted (join (e :: l)) = rooted e.
Proof.
  intros He. destruct l; [reflexivity |].
  change (join (e :: s :: l)) with (e +:+ String slash (join (s :: l))).
  apply rooted_app. exact He.
Qed.

Lemma join_nonempty e l : e <> "" -> join (e :: l) <> "".
Proof.
  intros He. destruct l; [exact He |].
  change (join (e :: s :: l)) with (e +:+ String slash (join (s :: l))).
  destruct e; [contradiction | rewrite append_cons; discriminate].
Qed.

(** What [render] gives back when it is cut and scanned again. *)
Lemma render_scan r out :
  cleanOut r out = true ->
  render r out <> ""
  /\ rooted (render r out) = r
  /\ fold_left (cleanStep r) (split (render r out)) [] = out.
Proof.
  intros Hout.
  pose proof (cleanOut_elements r out Hout) as Hel.
  destruct out as [| top below].
  - destruct r; cbn; repeat split; discriminate.
  - assert (Hrev : rev (top :: below) <> []).
    { cbn. destruct (rev below); discriminate. }
    assert (Hall : List.Forall (fun e => element e = true) (rev (top :: below))).
    { apply List.Forall_rev. exact Hel. }
    assert (Hns : List.Forall (fun e => noSlash e = true) (rev (top :: below))).
    { eapply List.Forall_impl; [| exact Hall]. cbn.
      intros e He. apply element_inv in He. tauto. }
    pose proof (fold_rev_cleanOut r _ Hout) as Hscan.
    destruct (rev (top :: below)) as [| e l] eqn:Erev; [contradiction |].
    inversion Hall as [| ? ? He _]; subst.
    pose proof (element_not_rooted e He) as Hnr.
    apply element_inv in He as (_ & Hne & _).
    destruct r; cbn [render]; rewrite Erev.
    + repeat split; [discriminate |].
      rewrite split_slash, split_join by (discriminate || assumption).
      exact Hscan.
    + repeat split.
      * apply join_nonempty. exact Hne.
      * rewrite join_head_rooted by exact Hne. exact Hnr.
      * rewrite split_join by (discriminate || assumption). exact Hscan.
Qed.

Lemma Clean_unfold (p : string) :
  p <> "" ->
  Clean p = render (rooted p) (fold_left (cleanStep (rooted p)) (split p) []).
Proof. intros Hp. unfold Clean. apply String.eqb_neq in Hp. now rewrite Hp. Qed.

Lemma Clean_cleanOut (p : string) :
  cleanOut (rooted p) (fold_left (cleanStep (rooted p)) (split p) []) = true.
Proof. apply fold_cleanOut; [apply split_all_noSlash | reflexivity]. Qed.

Lemma Clean_nonempty (p : string) : Clean p <> "".
Proof.
  destruct (String.eqb_spec p "") as [-> | Hp]; [discriminate |].
  rewrite Clean_unfold by exact Hp.
  apply render_scan, Clean_cleanOut.
Qed.

(** [Clean] is idempotent. *)
Lemma Clean_idempotent (p : string) : Clean (Clean p) = Clean p.
Proof.
  destruct (String.eqb_spec p "") as [-> | Hp]; [reflexivity |].
  rewrite (Clean_unfold p Hp).
  destruct (render_scan _ _ (Clean_cleanOut p)) as (Hne & Hr & Hscan).
  rewrite Clean_unfold by exact Hne. rewrite Hr, Hscan. reflexivity.
Qed.

(** Cleaning the front of a path first does not change the result. *)
Lemma Clean_front (p t : string) :
  p <> "" ->
  Clean (Clean p +:+ String slash t) = Clean (p +:+ String slash t).
Proof.
  intros Hp.
  assert (Hne1 : Clean p +:+ String slash t <> "").
  { intros [E _]%append_eq_nil. exact (Clean_nonempty p E). }
  assert (Hne2 : p +:+ String slash t <> "").
  { intros [E _]%append_eq_nil. exact (Hp E). }
  rewrite (Clean_unfold _ Hne1), (Clean_unfold _ Hne2).
  rewrite !split_app, !fold_left_app.
  rewrite rooted_app by apply Clean_nonempty. rewrite rooted_app by exact Hp.
  rewrite (Clean_unfold p Hp).
  destruct (render_scan _ _ (Clean_cleanOut p)) as (_ & Hr & Hscan).
  rewrite Hr, Hscan. reflexivity.
Qed.

(** [path.Join]: the buffer and the nesting of calls. *)
Lemma joinBuf_nonempty (elem : list string) : forall buf,
  buf <> "" -> joinBuf buf elem = buf +:+ joinRest elem.
Proof.
  induction elem as [| e rest IH]; intros buf Hb; cbn.
  - symmetry. apply append_nil_r.
  - apply String.eqb_neq in Hb as Hb'. rewrite Hb'. cbn.
    rewrite IH.
    + rewrite append_assoc, append_cons. reflexivity.
    + intros [E _]%append_eq_nil. exact (Hb E).
Qed.

Lemma joinBuf_first (e : string) (rest : list string) :
  e <> "" -> joinBuf "" (e :: rest) = e +:+ joinRest rest.
Proof.
  intros He. cbn. apply String.eqb_neq in He as He'. rewrite He'. cbn.
  apply joinBuf_nonempty. exact He.
Qed.

Lemma joinBuf_app (l1 l2 : list string) : forall buf,
  joinBuf buf (l1 ++ l2) = joinBuf (joinBuf buf l1) l2.
Proof.
  induction l1 as [| e l1 IH]; intros buf; cbn; [reflexivity |].
  destruct (negb (buf =? "")); [apply IH |].
  destruct (negb (e =? "")); apply IH.
Qed.

Lemma joinBuf_empty (l : list string) :
  forallb (fun e => String.eqb e "") l = true -> joinBuf "" l = "".
Proof.
  induction l as [| e l IH]; cbn; [reflexivity |].
  intros [He Hl]%andb_true_iff. rewrite He. cbn. apply IH. exact Hl.
Qed.

Lemma joinBuf_not_empty (l : list string) :
  forallb (fun e => String.eqb e "") l = false -> joinBuf "" l <> "".
Proof.
  induction l as [| e l IH]; cbn; [discriminate |].
  destruct (String.eqb_spec e "") as [-> | He]; cbn.
  - exact IH.
  - intros _. rewrite joinBuf_nonempty by exact He.
    intros [E _]%append_eq_nil. exact (He E).
Qed.

Lemma forallb_app_empty (l1 l2 : list string) :
  forallb (fun e => String.eqb e "") (l1 ++ l2)
  = forallb (fun e => String.eqb e "") l1
    && forallb (fun e => String.eqb e "") l2.
Proof. apply List.forallb_app. Qed.

Lemma Clean_joinRest (p : string) (rest : list string) :
  p <> "" -> Clean (Clean p +:+ joinRest rest) = Clean (p +:+ joinRest rest).
Proof.
  intros Hp. destruct rest as [| e rest]; cbn [joinRest].
  - rewrite !append_nil_r. apply Clean_idempotent.
  - apply Clean_front. exact Hp.
Qed.

(** Joining the result of a join with further elements is joining all the
    elements at once. *)
Lemma Join_nested (l rest : list string) :
  Join (Join l :: rest) = Join (l ++ rest).
Proof.
  unfold Join at 2 3. rewrite forallb_app_empty, joinBuf_app.
  destruct (forallb (fun e => String.eqb e "") l) eqn:Hl.
  - rewrite (joinBuf_empty l Hl). unfold Join. cbn. reflexivity.
  - pose proof (joinBuf_not_empty l Hl) as Hne.
    pose proof (Clean_nonempty (joinBuf "" l)) as Hc.
    unfold Join. cbn [forallb joinBuf andb].
    apply String.eqb_neq in Hc as Hc'. rewrite Hc'. cbn.
    rewrite (joinBuf_nonempty rest _ Hc), (joinBuf_nonempty rest _ Hne).
    apply Clean_joinRest. exact Hne.
Qed.

(** Ordinary elements are written out one after the other. *)
Lemma plain_inv e :
  plain e = true -> noSlash e = true /\ e <> "" /\ e <> "." /\ e <> "..".
Proof.
  unfold plain. intros [He Hdd]%andb_true_iff.
  apply element_inv in He as (H1 & H2 & H3).
  apply negb_true_iff, String.eqb_neq in Hdd. auto.
Qed.

Lemma cleanStep_plain r out e : plain e = true -> cleanStep r out e = e :: out.
Proof.
  intros (_ & H1 & H2 & H3)%plain_inv. unfold cleanStep.
  apply String.eqb_neq in H1, H2, H3. now rewrite H1, H2, H3.
Qed.

Lemma fold_plain r l : forall out,
  List.Forall (fun e => plain e = true) l ->
  fold_left (cleanStep r) l out = rev l ++ out.
Proof.
  induction l as [| e l IH]; intros out Hl; cbn; [reflexivity |].
  inversion Hl; subst. rewrite cleanStep_plain by assumption.
  rewrite IH by assumption. rewrite <- app_assoc. reflexivity.
Qed.

Lemma join_split (s : string) : join (split s) = s.
Proof.
  induction s as [| c s IH]; cbn; [reflexivity |].
  destruct (Ascii.eqb_spec c slash) as [-> | Hc].
  - pose proof (split_nonempty s) as Hne.
    destruct (split s) as [| h tl] eqn:E; [contradiction |].
    change (join ("" :: h :: tl)) with ("" +:+ String slash (join (h :: tl))).
    rewrite IH. reflexivity.
  - pose proof (split_nonempty s) as Hne.
    destruct (split s) as [| h tl] eqn:E; [contradiction |].
    destruct tl as [| h' tl].
    + cbn in *. now rewrite IH.
    + change (join (String c h :: h' :: tl))
        with (String c h +:+ String slash (join (h' :: tl))).
      change (join (h :: h' :: tl))
        with (h +:+ String slash (join (h' :: tl))) in IH.
      rewrite append_cons, IH. reflexivity.
Qed.

(** A path of ordinary elements is clean already. *)
Lemma Clean_plain (p : string) :
  List.Forall (fun e => plain e = true) (split p) -> Clean p = p.
Proof.
  intros Hall.
  pose proof (split_nonempty p) as Hne.
  destruct (split p) as [| e l] eqn:E; [contradiction |].
  assert (Hp : p <> "").
  { intros ->. cbn in E. injection E as <- <-.
    inversion Hall as [| ? ? He _]; subst. discriminate He. }
  assert (Hr : rooted p = false).
  { destruct p as [| c p']; [reflexivity |]. cbn in *.
    destruct (Ascii.eqb c slash); [| reflexivity].
    injection E as <- <-. inversion Hall as [| ? ? He _]; subst.
    discriminate He. }
  rewrite Clean_unfold by exact Hp. rewrite Hr, E, fold_plain by exact Hall.
  rewrite app_nil_r.
  assert (Hrev : rev (e :: l) <> []).
  { cbn. destruct (rev l); discriminate. }
  unfold render. destruct (rev (e :: l)) as [| x xs] eqn:Erev; [contradiction |].
  rewrite <- Erev, rev_involutive, <- E. apply join_split.
Qed.

End path_facts.

(** ** The two time layouts *)

Module time_facts.

Import time path_facts.

Lemma stamp_app (s t : string) : stamp (s +:+ t) = stamp s && stamp t.
Proof.
  induction s as [| c s IH]; [reflexivity |].
  rewrite append_cons. cbn. rewrite IH. apply andb_assoc.
Qed.

Lemma stamp_zeros n : stamp (zeros n) = true.
Proof. induction n as [| n IH]; [reflexivity | exact IH]. Qed.

Lemma stamp_string_of_uint (d : Decimal.uint) :
  stamp (NilEmpty.string_of_uint d) = true.
Proof. induction d; cbn; auto. Qed.

Lemma stamp_digits u : stamp (digits u) = true.
Proof. apply stamp_string_of_uint. Qed.

Lemma digits_nonempty u : digits u <> "".
Proof.
  unfold digits. destruct (Z.to_N u) as [| p]; [discriminate |].
  cbn. pose proof (Unsigned.to_uint_nonnil p) as Hp.
  destruct (Pos.to_uint p); [contradiction | discriminate ..].
Qed.

Lemma stamp_appendInt x w : stamp (appendInt x w) = true.
Proof.
  unfold appendInt. rewrite !stamp_app, stamp_zeros, stamp_digits.
  destruct (Z.ltb x 0); reflexivity.
Qed.

Lemma appendInt_nonempty x w : appendInt x w <> "".
Proof.
  unfold appendInt. intros [_ [_ E]%append_eq_nil]%append_eq_nil.
  exact (digits_nonempty _ E).
Qed.

Lemma stamp_noSlash s : stamp s = true -> path.noSlash s = true.
Proof.
  induction s as [| c s IH]; [reflexivity |]. cbn.
  intros [[Hc _]%andb_true_iff Hs]%andb_true_iff.
  unfold path.slash. rewrite Hc. exact (IH Hs).
Qed.

(** A non-empty string without slash and dot is an ordinary path element. *)
Lemma stamp_plain s : s <> "" -> stamp s = true -> path.plain s = true.
Proof.
  intros Hne Hs. unfold path.plain, path.element.
  rewrite (stamp_noSlash s Hs).
  destruct s as [| c s]; [contradiction |].
  cbn in Hs. apply andb_true_iff in Hs as [[_ Hdot]%andb_true_iff _].
  apply negb_true_iff in Hdot.
  cbn. rewrite Hdot. reflexivity.
Qed.

Lemma plain_appendInt x w : path.plain (appendInt x w) = true.
Proof. apply stamp_plain; [apply appendInt_nonempty | apply stamp_appendInt]. Qed.

Lemma plain_FormatRFC3339 t : path.plain (FormatRFC3339 t) = true.
Proof.
  apply stamp_plain.
  - unfold FormatRFC3339. intros [E _]%append_eq_nil.
    exact (appendInt_nonempty _ _ E).
  - unfold FormatRFC3339. rewrite !stamp_app, !stamp_appendInt. reflexivity.
Qed.

(** The date layout is three numbers with slashes between them. *)
Lemma split_FormatDate t :
  path.split (FormatDate t)
  = [appendInt (Year t) 4; appendInt (Month t) 2; appendInt (Day t) 2].
Proof.
  unfold FormatDate.
  change (appendInt (Year t) 4 +:+ "/" +:+ appendInt (Month t) 2 +:+ "/"
          +:+ appendInt (Day t) 2)
    with (appendInt (Year t) 4
          +:+ String path.slash (appendInt (Month t) 2
          +:+ String path.slash (appendInt (Day t) 2))).
  rewrite !split_app.
  rewrite !split_noSlash by (apply stamp_noSlash, stamp_appendInt).
  reflexivity.
Qed.

End time_facts.

(** ** flusherDelegator *)

Module middleware_facts.

Import middleware.

Lemma count_app p (xs ys : list Event) :
  count p (xs ++ ys) = (count p xs + count p ys)%nat.
Proof. unfold count. rewrite List.filter_app, List.length_app. reflexivity. Qed.

Lemma sumWritten_app (xs ys : list Event) :
  sumWritten (xs ++ ys) = sumWritten xs + sumWritten ys.
Proof.
  induction xs as [| e xs IH]; simpl; [reflexivity |].
  destruct e; rewrite IH; lia.
Qed.

(** What one call leaves in the counter and in the trace. *)
Lemma step_written c f f' ev ok :
  step c f = (f', ev, ok) ->
  written f' = wrap64 (written f + sumWritten ev) \/
  (written f' = written f /\ sumWritten ev = 0).
Proof.
  destruct f as [fl awh attfb st wr wh ob].
  destruct c as [code | b n err |]; unfold step, Write, Flush, WriteHeader;
    cbn.
  - intros [= <- <- <-]. right. destruct awh, wh; cbn; auto.
  - destruct wh, awh, attfb, ob; cbn; intros [= <- <- <-]; left; cbn;
      f_equal; lia.
  - destruct wh, awh, fl; cbn; intros [= <- <- <-]; right; cbn; auto.
Qed.

(** The counter is the sum of the byte counts the wrapped writer returned,
    in [int64] arithmetic. *)
Lemma run_written cs : forall f,
  written (fst (run cs f)) = wrap64 (written f + sumWritten (snd (run cs f)))
  \/ (written (fst (run cs f)) = written f /\ sumWritten (snd (run cs f)) = 0).
Proof.
  induction cs as [| c cs IH]; intros f; simpl.
  - right. auto.
  - destruct (step c f) as [[f1 ev1] ok] eqn:Hs.
    pose proof (step_written _ _ _ _ _ Hs) as H1.
    destruct ok.
    + specialize (IH f1). destruct (run cs f1) as [f2 ev2]; simpl in *.
      rewrite sumWritten_app.
      destruct H1 as [H1 | [H1 H1']], IH as [IH | [IH IH']].
      * left. rewrite IH, H1, wrap64_add_l. f_equal. lia.
      * left. rewrite IH, H1, IH'. f_equal. lia.
      * left. rewrite IH, H1, H1'. f_equal.
      * right. split; [congruence | lia].
    + simpl. exact H1.
Qed.

Lemma run_written_exact cs f :
  written f = 0 ->
  in_int64 (sumWritten (snd (run cs f))) ->
  written (fst (run cs f)) = sumWritten (snd (run cs f)).
Proof.
  intros H0 Hr. destruct (run_written cs f) as [E | [E E']].
  - rewrite E, H0. simpl. apply wrap64_id. exact Hr.
  - rewrite E, E'. exact H0.
Qed.

(** The first-byte callback runs at most once over any run. *)
Lemma step_ttfb c f f' ev ok :
  step c f = (f', ev, ok) ->
  (observedTimeToFirstByte f = true -> observedTimeToFirstByte f' = true)
  /\ (observedTimeToFirstByte f = true -> count isAtTimeToFirstByte ev = 0%nat)
  /\ (count isAtTimeToFirstByte ev = 1%nat -> observedTimeToFirstByte f' = true)
  /\ (count isAtTimeToFirstByte ev <= 1)%nat.
Proof.
  destruct f as [fl awh attfb st wr wh ob].
  destruct c as [code | b n err |]; unfold step, Write, Flush, WriteHeader;
    cbn.
  - intros [= <- <- <-]. destruct awh, wh; cbn; repeat split; auto; lia.
  - destruct wh, awh, attfb, ob; cbn; intros [= <- <- <-]; cbn;
      repeat split; auto; try lia; try discriminate.
  - destruct wh, awh, fl; cbn; intros [= <- <- <-]; cbn;
      repeat split; auto; try lia; try discriminate.
Qed.

Lemma run_ttfb_observed cs : forall f,
  observedTimeToFirstByte f = true ->
  count isAtTimeToFirstByte (snd (run cs f)) = 0%nat.
Proof.
  induction cs as [| c cs IH]; intros f Ho; simpl; [reflexivity |].
  destruct (step c f) as [[f1 ev1] ok] eqn:Hs.
  destruct (step_ttfb _ _ _ _ _ Hs) as (Hkeep & Hnone & _).
  destruct ok; simpl; [| auto].
  specialize (IH f1 (Hkeep Ho)). destruct (run cs f1) as [f2 ev2]; simpl in *.
  rewrite count_app, IH, Hnone by assumption. reflexivity.
Qed.

Lemma run_ttfb_once cs : forall f,
  (count isAtTimeToFirstByte (snd (run cs f)) <= 1)%nat.
Proof.
  induction cs as [| c cs IH]; intros f; simpl; [unfold count; simpl; lia |].
  destruct (step c f) as [[f1 ev1] ok] eqn:Hs.
  destruct (step_ttfb _ _ _ _ _ Hs) as (_ & _ & Hset & Hle).
  destruct ok; simpl; [| exact Hle].
  pose proof (IH f1) as IH1. pose proof (run_ttfb_observed cs f1) as Hobs.
  destruct (run cs f1) as [f2 ev2]; simpl in *.
  rewrite count_app.
  destruct (Nat.eq_dec (count isAtTimeToFirstByte ev1) 1%nat) as [E | E].
  - rewrite (Hobs (Hset E)). lia.
  - lia.
Qed.

(** Without [Flush], the header callback runs at most once. *)
Lemma step_header_no_flush c f f' ev ok :
  isFlush c = false ->
  step c f = (f', ev, ok) ->
  ok = true
  /\ (wroteHeader f = true -> wroteHeader f' = true)
  /\ (wroteHeader f = true -> count isAtWriteHeader ev = 0%nat)
  /\ (count isAtWriteHeader ev = 1%nat -> wroteHeader f' = true)
  /\ (count isAtWriteHeader ev <= 1)%nat.
Proof.
  destruct f as [fl awh attfb st wr wh ob].
  destruct c as [code | b n err |]; unfold step, Write, Flush, WriteHeader;
    cbn; try discriminate; intros _.
  - intros [= <- <- <-]. destruct awh, wh; cbn; repeat split; auto; lia.
  - destruct wh, awh, attfb, ob; cbn; intros [= <- <- <-]; cbn;
      repeat split; auto; try lia; try discriminate.
Qed.

Lemma run_header_wrote cs : forall f,
  forallb (fun c => negb (isFlush c)) cs = true ->
  wroteHeader f = true ->
  count isAtWriteHeader (snd (run cs f)) = 0%nat.
Proof.
  induction cs as [| c cs IH]; intros f Hnf Hw; simpl; [reflexivity |].
  simpl in Hnf. apply andb_true_iff in Hnf as [Hc Hcs].
  apply negb_true_iff in Hc.
  destruct (step c f) as [[f1 ev1] ok] eqn:Hs.
  destruct (step_header_no_flush _ _ _ _ _ Hc Hs) as (-> & Hkeep & Hnone & _).
  specialize (IH f1 Hcs (Hkeep Hw)).
  destruct (run cs f1) as [f2 ev2]; simpl in *.
  rewrite count_app, IH, Hnone by assumption. reflexivity.
Qed.

Lemma run_header_once_no_flush cs : forall f,
  forallb (fun c => negb (isFlush c)) cs = true ->
  (count isAtWriteHeader (snd (run cs f)) <= 1)%nat.
Proof.
  induction cs as [| c cs IH]; intros f Hnf; simpl;
    [unfold count; simpl; lia |].
  simpl in Hnf. apply andb_true_iff in Hnf as [Hc Hcs].
  apply negb_true_iff in Hc.
  destruct (step c f) as [[f1 ev1] ok] eqn:Hs.
  destruct (step_header_no_flush _ _ _ _ _ Hc Hs) as (-> & _ & _ & Hset & Hle).
  pose proof (IH f1 Hcs) as IH1.
  pose proof (run_header_wrote cs f1 Hcs) as Hw.
  destruct (run cs f1) as [f2 ev2]; simpl in *.
  rewrite count_app.
  destruct (Nat.eq_dec (count isAtWriteHeader ev1) 1%nat) as [E | E].
  - rewrite (Hw (Hset E)). lia.
  - lia.
Qed.

(** A [Write] with no header written yet first goes through
    [WriteHeader(http.StatusOK)] and keeps the status. *)
Lemma Write_records_StatusOK b n err f :
  wroteHeader f = false ->
  let '(f', ev, _) := Write b n err f in
  status f' = StatusOK /\ wroteHeader f' = true
  /\ exists ev', ev = snd (WriteHeader StatusOK f) ++ ev'.
Proof.
  destruct f as [fl awh attfb st wr wh ob]; cbn. intros ->.
  unfold Write, WriteHeader; cbn.
  destruct awh, attfb, ob; cbn; repeat split; eexists; reflexivity.
Qed.

(** A [Flush] with no header written yet makes the calls of
    [WriteHeader(http.StatusOK)], but the delegator it was called on is
    left as it was: neither the status nor [wroteHeader] is recorded. *)
Lemma Flush_keeps_receiver f :
  let '(f', ev, _) := Flush f in
  f' = f
  /\ (wroteHeader f = false ->
      exists ev', ev = snd (WriteHeader StatusOK f) ++ ev').
Proof.
  destruct f as [fl awh attfb st wr wh ob]; unfold Flush, WriteHeader; cbn.
  destruct wh, awh, fl; cbn; (split; [reflexivity |]); intros Hw;
    try discriminate; eexists; try reflexivity;
    symmetry; apply app_nil_r.
Qed.

(** Two flushes before anything else run the header callback twice, for
    every delegator that has one. *)
Lemma Flush_Flush_header_twice f :
  atWriteHeaderFunc f = true -> wroteHeader f = false -> isFlusher f = true ->
  count isAtWriteHeader (snd (run [CallFlush; CallFlush] f)) = 2%nat.
Proof.
  destruct f as [fl awh attfb st wr wh ob]; cbn. intros -> -> ->.
  reflexivity.
Qed.

(** C10.  The delegator is meant to run [atWriteHeaderFunc] once only, on
    the first [WriteHeader].  On the calls [Flush] then [Write] of a fresh
    delegator it runs twice: the [WriteHeader(200)] that [Flush] makes sets
    [wroteHeader] on the copy [Flush] works on, so the [Write] that follows
    finds [wroteHeader] still false and goes through [WriteHeader(200)]
    again.  After the [Flush] the delegator has status 0 and no header
    recorded. *)
Theorem Flush_then_Write_runs_atWriteHeaderFunc_twice :
  run [CallFlush; CallWrite hi 2 None] fresh
  = ({| isFlusher := true; atWriteHeaderFunc := true;
        atTimeToFirstByteFunc := true; status := 200; written := 2;
        wroteHeader := true; observedTimeToFirstByte := true |},
     [AtWriteHeader 200; RWWriteHeader 200; RWFlush;
      AtWriteHeader 200; RWWriteHeader 200; RWWrite hi 2;
      AtTimeToFirstByte 200])
  /\ count isAtWriteHeader (snd (run [CallFlush; CallWrite hi 2 None] fresh))
     = 2%nat
  /\ fst (run [CallFlush] fresh) = fresh
  /\ status (fst (run [CallFlush] fresh)) = 0
  /\ wroteHeader (fst (run [CallFlush] fresh)) = false.
Proof. repeat split; vm_compute; reflexivity. Qed.

End middleware_facts.

(** ** The admin service *)

Module badgerauth_facts.

Import pb badgerauth.

Lemma SetBytes_ok (v : list Byte.byte) :
  List.length v = 32%nat -> authdb.SetBytes v = inl v.
Proof.
  intros Hl. unfold authdb.SetBytes, authdb.KeyHashSize.
  rewrite Hl. reflexivity.
Qed.

Lemma SetBytes_wrong_length (v : list Byte.byte) :
  List.length v <> 32%nat ->
  authdb.SetBytes v = inr (ErrsNew "KeyHash wrong length" []).
Proof.
  intros Hl. unfold authdb.SetBytes, authdb.KeyHashSize.
  destruct (Nat.eqb_spec (List.length v) 32); [contradiction | reflexivity].
Qed.



Section WithCollaborators.

Context `{Collaborators}.

(** Errors are neither made up nor swallowed on the way to the caller. *)
Hypothesis errToRPCStatusErr_nil : errToRPCStatusErr None = None.
Hypothesis errToRPCStatusErr_err :
  forall e, errToRPCStatusErr (Some e) <> None.

(** A signature made with a node's key verifies under its public key. *)
Hypothesis Verify_Sign :
  forall sk m, Verify (PublicKeyOf sk) m (Sign sk m) = true.

Lemma Next_range db : 0 <= Next db < 2 ^ 64.
Proof. unfold Next. apply Z.mod_pos_bound. lia. Qed.

Lemma Next_succ db :
  0 <= clock db -> clock db + 1 < 2 ^ 64 -> Next db = clock db + 1.
Proof. intros. unfold Next. apply Z.mod_small. lia. Qed.



(** The order of the log is kept by every append. *)
Lemma Append_LogOrdered db op keyHash delta mutation :
  LogOrdered db -> clock db + 1 < 2 ^ 64 ->
  LogOrdered (fst (Append db op keyHash delta mutation)).
Proof.
  intros [Hc Hlog] Hno. unfold LogOrdered, Append; cbn.
  split; [apply Next_range |].
  rewrite Next_succ by lia.
  apply List.Forall_app. split.
  - eapply List.Forall_impl; [| exact Hlog]. cbn. intros e He E.
    specialize (He E). lia.
  - constructor; [| constructor]. cbn. intros _. lia.
Qed.

Lemma updateRecord_stored db op keyHash fn r :
  records db !! keyHash = Some r ->
  updateRecord db op keyHash fn
  = (fst (Append db op keyHash (Fields (diff r (fn r)))
            (Some (set_State (dominate (State (fn r)) (stateOf op)) (fn r)))),
     None).
Proof. intros Hr. unfold updateRecord. rewrite Hr. reflexivity. Qed.

Lemma updateRecord_LogOrdered db op keyHash fn :
  LogOrdered db -> clock db + 1 < 2 ^ 64 ->
  LogOrdered (fst (updateRecord db op keyHash fn)).
Proof.
  intros Hord Hno. unfold updateRecord.
  destruct (records db !! keyHash); [| exact Hord].
  apply Append_LogOrdered; assumption.
Qed.

Lemma deleteRecord_LogOrdered db keyHash :
  LogOrdered db -> clock db + 1 < 2 ^ 64 ->
  LogOrdered (fst (deleteRecord db keyHash)).
Proof. intros Hord Hno. apply Append_LogOrdered; assumption. Qed.

Lemma Append_records_mutation db op keyHash delta r' :
  records (fst (Append db op keyHash delta (Some r'))) !! keyHash = Some r'.
Proof. unfold Append; cbn. apply lookup_insert_eq. Qed.

Lemma Append_records_other db op keyHash delta mutation k :
  k <> keyHash ->
  records (fst (Append db op keyHash delta mutation)) !! k = records db !! k.
Proof.
  intros Hk. unfold Append; cbn. destruct mutation; [| reflexivity].
  apply lookup_insert_ne. congruence.
Qed.




(** C2.  [InvalidateRecord] with an empty reason answers the
    InvalidArgument status error "missing reason", with no response, and
    hands the database back as it was. *)
Theorem InvalidateRecord_missing_reason admin now req :
  InvalidateRecordRequest_Reason req = "" ->
  InvalidateRecord admin now req
  = (admin, None, Some (RPCStatusError InvalidArgument "missing reason")).
Proof. intros Hr. unfold InvalidateRecord. rewrite Hr. reflexivity. Qed.

(** C5.  With a key that [KeyHash.SetBytes] rejects (a key of the wrong
    length is one), each of the three admin operations answers an error:
    the error of the key as [errToRPCStatusErr] passes it on (for
    [InvalidateRecord] with an empty reason, the missing-reason error that
    is checked before).  It gives no response and hands the database back
    as it was: the store is not reached. *)
Theorem invalid_key_is_rejected_before_any_update admin key err :
  authdb.SetBytes key = inr err ->
  errToRPCStatusErr (Some err) <> None
  /\ (forall now reason,
        InvalidateRecord admin now
          {| InvalidateRecordRequest_Key := key;
             InvalidateRecordRequest_Reason := reason |}
        = (admin, None,
           if String.eqb reason ""
           then Some (RPCStatusError InvalidArgument "missing reason")
           else errToRPCStatusErr (Some err)))
  /\ UnpublishRecord admin {| UnpublishRecordRequest_Key := key |}
     = (admin, None, errToRPCStatusErr (Some err))
  /\ DeleteRecord admin {| DeleteRecordRequest_Key := key |}
     = (admin, None, errToRPCStatusErr (Some err)).
Proof.
  intros Hkey. split; [apply errToRPCStatusErr_err |].
  unfold InvalidateRecord, UnpublishRecord, DeleteRecord; cbn.
  rewrite Hkey.
  repeat split. intros now reason. destruct (String.eqb reason ""); reflexivity.
Qed.

(** C3.  For a request with a reason and a valid key under which a record
    is stored, [InvalidateRecord] succeeds, and the record then stored
    under the key has [InvalidatedAtUnix] equal to the clock reading and
    [InvalidationReason] equal to the reason of the request. *)
Theorem InvalidateRecord_sets_time_and_reason admin now req keyHash r :
  InvalidateRecordRequest_Reason req <> "" ->
  authdb.SetBytes (InvalidateRecordRequest_Key req) = inl keyHash ->
  records (Admin_db admin) !! keyHash = Some r ->
  exists admin' r',
    InvalidateRecord admin now req
    = (admin', Some mkInvalidateRecordResponse, None)
    /\ records (Admin_db admin') !! keyHash = Some r'
    /\ InvalidatedAtUnix r' = now
    /\ InvalidationReason r' = InvalidateRecordRequest_Reason req.
Proof.
  intros Hreason Hkey Hr. unfold InvalidateRecord.
  apply String.eqb_neq in Hreason. rewrite Hreason, Hkey.
  rewrite (updateRecord_stored _ _ _ _ _ Hr), errToRPCStatusErr_nil.
  do 2 eexists. split; [reflexivity |]. cbn [Admin_db].
  split; [apply Append_records_mutation |]. split; reflexivity.
Qed.

(** C4.  For a valid key under which a record is stored,
    [UnpublishRecord] succeeds; the record then stored under the key has
    [Public] false and the same [CreatedAtUnix], [SatelliteAddress],
    [MacaroonHead], [EncryptedSecretKey], [EncryptedAccessGrant],
    [ExpiresAtUnix], [InvalidatedAtUnix] and [InvalidationReason] as
    before, and the records under the other keys are the same. *)
Theorem UnpublishRecord_changes_only_Public admin req keyHash r :
  authdb.SetBytes (UnpublishRecordRequest_Key req) = inl keyHash ->
  records (Admin_db admin) !! keyHash = Some r ->
  exists admin' r',
    UnpublishRecord admin req = (admin', Some mkUnpublishRecordResponse, None)
    /\ records (Admin_db admin') !! keyHash = Some r'
    /\ Public r' = false
    /\ CreatedAtUnix r' = CreatedAtUnix r
    /\ SatelliteAddress r' = SatelliteAddress r
    /\ MacaroonHead r' = MacaroonHead r
    /\ EncryptedSecretKey r' = EncryptedSecretKey r
    /\ EncryptedAccessGrant r' = EncryptedAccessGrant r
    /\ ExpiresAtUnix r' = ExpiresAtUnix r
    /\ InvalidatedAtUnix r' = InvalidatedAtUnix r
    /\ InvalidationReason r' = InvalidationReason r
    /\ forall k, k <> keyHash ->
         records (Admin_db admin') !! k = records (Admin_db admin) !! k.
Proof.
  intros Hkey Hr. unfold UnpublishRecord. rewrite Hkey.
  rewrite (updateRecord_stored _ _ _ _ _ Hr), errToRPCStatusErr_nil.
  do 2 eexists. split; [reflexivity |]. cbn [Admin_db].
  split; [apply Append_records_mutation |].
  do 9 (split; [reflexivity |]).
  intros k Hk. apply Append_records_other. exact Hk.
Qed.


End WithCollaborators.

(** The theorems at the sample node. *)

#[local] Existing Instance sample.collaborators.

Lemma sample_errToRPCStatusErr_nil :
  errToRPCStatusErr (Collaborators := sample.collaborators) None = None.
Proof. reflexivity. Qed.

Lemma sample_errToRPCStatusErr_err e :
  errToRPCStatusErr (Collaborators := sample.collaborators) (Some e) <> None.
Proof. discriminate. Qed.



Lemma sample_stored : records sample.db !! sample.key = Some sample.record.
Proof. apply lookup_singleton_eq. Qed.

Lemma InvalidateRecord_missing_reason_witness :
  InvalidateRecord sample.admin sample.now
    {| InvalidateRecordRequest_Key := sample.key;
       InvalidateRecordRequest_Reason := "" |}
  = (sample.admin, None,
     Some (RPCStatusError InvalidArgument "missing reason")).
Proof.
  apply (InvalidateRecord_missing_reason sample.admin sample.now
           {| InvalidateRecordRequest_Key := sample.key;
              InvalidateRecordRequest_Reason := "" |}).
  reflexivity.
Defined.

Lemma invalid_key_is_rejected_before_any_update_witness :
  UnpublishRecord sample.admin
    {| UnpublishRecordRequest_Key := sample.shortKey |}
  = (sample.admin, None, Some (RPCStatusError Internal "internal"))
  /\ DeleteRecord sample.admin
       {| DeleteRecordRequest_Key := sample.shortKey |}
     = (sample.admin, None, Some (RPCStatusError Internal "internal")).
Proof.
  destruct (invalid_key_is_rejected_before_any_update
              sample_errToRPCStatusErr_err sample.admin sample.shortKey
              (ErrsNew "KeyHash wrong length" []))
    as (_ & _ & HU & HD).
  - reflexivity.
  - split; [exact HU | exact HD].
Defined.

Lemma InvalidateRecord_sets_time_and_reason_witness :
  exists admin' r',
    InvalidateRecord sample.admin sample.now
      {| InvalidateRecordRequest_Key := sample.key;
         InvalidateRecordRequest_Reason := "abuse" |}
    = (admin', Some mkInvalidateRecordResponse, None)
    /\ records (Admin_db admin') !! sample.key = Some r'
    /\ InvalidatedAtUnix r' = sample.now
    /\ InvalidationReason r' = "abuse".
Proof.
  apply (InvalidateRecord_sets_time_and_reason sample_errToRPCStatusErr_nil
           sample.admin sample.now
           {| InvalidateRecordRequest_Key := sample.key;
              InvalidateRecordRequest_Reason := "abuse" |}
           sample.key sample.record).
  - discriminate.
  - reflexivity.
  - exact sample_stored.
Defined.

Lemma UnpublishRecord_changes_only_Public_witness :
  exists admin' r',
    UnpublishRecord sample.admin {| UnpublishRecordRequest_Key := sample.key |}
    = (admin', Some mkUnpublishRecordResponse, None)
    /\ records (Admin_db admin') !! sample.key = Some r'
    /\ Public r' = false
    /\ SatelliteAddress r' = "sat.example:7777".
Proof.
  destruct (UnpublishRecord_changes_only_Public sample_errToRPCStatusErr_nil
              sample.admin {| UnpublishRecordRequest_Key := sample.key |}
              sample.key sample.record)
    as (admin' & r' & Hres & Hrec & Hpub & _ & Hsat & _).
  - reflexivity.
  - exact sample_stored.
  - exists admin', r'. repeat split; assumption.
Defined.


End badgerauth_facts.

(** ** The backup job *)

Module backup_facts.

Import badgerauth path_facts time_facts.

Lemma Join_plain (p id d f : string) :
  List.Forall (fun e => path.plain e = true) (path.split p) ->
  path.plain id = true ->
  List.Forall (fun e => path.plain e = true) (path.split d) ->
  path.plain f = true ->
  path.Join [p; id; d; f]
  = p +:+ "/" +:+ id +:+ "/" +:+ d +:+ "/" +:+ f.
Proof.
  intros Hp Hid Hd Hf.
  assert (Hne : p <> "").
  { intros ->. inversion Hp as [| ? ? He _]; subst. discriminate He. }
  unfold path.Join. cbn [forallb].
  apply String.eqb_neq in Hne as Hne'. rewrite Hne'. cbn [andb].
  rewrite joinBuf_first by exact Hne. cbn [path.joinRest].
  rewrite append_nil_r.
  transitivity (p +:+ String path.slash (id +:+ String path.slash
                  (d +:+ String path.slash f))); [| reflexivity].
  apply Clean_plain.
  rewrite !split_app.
  rewrite (split_noSlash id) by (apply plain_inv in Hid; tauto).
  rewrite (split_noSlash f) by (apply plain_inv in Hf; tauto).
  apply List.Forall_app. split; [exact Hp |].
  constructor; [exact Hid |].
  apply List.Forall_app. split; [exact Hd |].
  constructor; [exact Hf | constructor].
Qed.

Section WithCollaborators.

Context `{Collaborators}.

Lemma RunOnce_calls b t stream :
  calls (RunOnce b t stream)
  = [{| bucketName := Bucket (Backup (config (Backup_db b)));
        objectName :=
          path.Join [prefix b; time.FormatDate t; time.FormatRFC3339 t];
        reader :=
          {| PipeReader_data := Stream_output stream;
             PipeReader_closed :=
               match Stream_err stream with Some e => e | None => EOF end |};
        objectSize := -1;
        opts := zeroPutObjectOptions |}].
Proof.
  unfold RunOnce.
  destruct (streamBackup _ _); cbn; destruct (PutObject_err _); reflexivity.
Qed.

(** C6.  The object key handed to [PutObject] is the backup prefix of the
    configuration, the node ID, the date [yyyy/mm/dd] and the RFC 3339
    time stamp of the run, joined as one path.  When the prefix is made of
    ordinary path elements and the node ID is one, that is the text
    [<prefix>/<nodeID>/<yyyy>/<mm>/<dd>/<RFC3339>]. *)
Theorem RunOnce_object_key db client t stream :
  List.map objectName (calls (RunOnce (NewBackup db client) t stream))
  = [path.Join [Prefix (Backup (config db)); NodeID_String (ID (config db));
                time.FormatDate t; time.FormatRFC3339 t]]
  /\ (List.Forall (fun e => path.plain e = true)
        (path.split (Prefix (Backup (config db)))) ->
      path.plain (NodeID_String (ID (config db))) = true ->
      List.map objectName (calls (RunOnce (NewBackup db client) t stream))
      = [Prefix (Backup (config db)) +:+ "/"
         +:+ NodeID_String (ID (config db)) +:+ "/"
         +:+ time.appendInt (time.Year t) 4 +:+ "/"
         +:+ time.appendInt (time.Month t) 2 +:+ "/"
         +:+ time.appendInt (time.Day t) 2 +:+ "/"
         +:+ time.FormatRFC3339 t]).
Proof.
  assert (Hkey :
    List.map objectName (calls (RunOnce (NewBackup db client) t stream))
    = [path.Join [Prefix (Backup (config db)); NodeID_String (ID (config db));
                  time.FormatDate t; time.FormatRFC3339 t]]).
  { rewrite RunOnce_calls. cbn [List.map objectName prefix NewBackup].
    rewrite (Join_nested
               [Prefix (Backup (config db)); NodeID_String (ID (config db))]
               [time.FormatDate t; time.FormatRFC3339 t]).
    reflexivity. }
  split; [exact Hkey |].
  intros Hp Hid. rewrite Hkey. f_equal.
  rewrite Join_plain.
  - unfold time.FormatDate. rewrite !append_assoc. reflexivity.
  - exact Hp.
  - exact Hid.
  - rewrite split_FormatDate. repeat constructor; apply plain_appendInt.
  - apply plain_FormatRFC3339.
Qed.

(** C8.  A run makes one [PutObject] call; its size argument is -1 and its
    reader is the read side of the pipe the snapshot is written to. *)
Theorem RunOnce_uploads_with_unknown_size b t stream :
  exists call,
    calls (RunOnce b t stream) = [call]
    /\ objectSize call = -1
    /\ reader call
       = {| PipeReader_data := Stream_output stream;
            PipeReader_closed :=
              match Stream_err stream with Some e => e | None => EOF end |}.
Proof.
  rewrite RunOnce_calls. eexists. split; [reflexivity |]. split; reflexivity.
Qed.

(** [CloseWithError] never hands an error back, so neither does the
    goroutine, and [group.Wait()] has none to report. *)
Lemma streamGoroutine_closes err :
  streamGoroutine err WOpen
  = (WClosed (match err with Some e => e | None => EOF end), None).
Proof. reflexivity. Qed.

(** Every error [RunOnce] returns belongs to the backup class, and it is
    the upload error: an error of the stream never comes back through
    [group.Wait()]. *)
Lemma RunOnce_errors_have_the_backup_class b t stream e :
  returned (RunOnce b t stream) = Returns (Some e) ->
  ClassHas BackupError e = true.
Proof.
  unfold RunOnce.
  destruct (streamBackup _ _) as [err |]; cbn;
    destruct (PutObject_err _) as [uerr |]; cbn;
    intros [= <-] || discriminate; reflexivity.
Qed.

(** When [RunOnce] waits for the goroutine, the write side is closed by
    the time it returns. *)
Lemma RunOnce_nil_closes_the_pipe b t stream :
  returned (RunOnce b t stream) = Returns None ->
  writeSide (RunOnce b t stream) <> WOpen.
Proof.
  unfold RunOnce.
  destruct (streamBackup _ _) as [err |]; cbn;
    destruct (PutObject_err _) as [uerr |]; cbn;
    discriminate.
Qed.

End WithCollaborators.

#[local] Existing Instance sample.collaborators.

Lemma RunOnce_object_key_witness :
  List.map objectName
    (calls (RunOnce (NewBackup sample.db sample.client) sample.t sample.stream))
  = ["myprefix/mynodeid/2022/04/13/2022-04-13T03:42:07Z"].
Proof.
  destruct (RunOnce_object_key sample.db sample.client sample.t sample.stream)
    as [_ Hliteral].
  rewrite Hliteral.
  - reflexivity.
  - vm_compute. repeat constructor.
  - vm_compute. reflexivity.
Defined.

(** C7.  After an upload that failed before it took the whole stream,
    [RunOnce] returns its error, of the backup class, while the goroutine
    still waits to write: the write side of the pipe is not closed, with
    no error at all, and nothing is left to close it.  The return after a
    successful upload waits for the goroutine, and there the write side is
    closed with the error of the stream ([io.EOF] when it has none). *)
Theorem RunOnce_failed_upload_leaves_pipe_open :
  returned (RunOnce (NewBackup sample.db sample.failingClient) sample.t
              sample.stream)
  = Returns (Some (ClassNew BackupError "upload object: %w"
                     (Foreign "connection refused")))
  /\ ClassHas BackupError
       (ClassNew BackupError "upload object: %w" (Foreign "connection refused"))
     = true
  /\ writeSide (RunOnce (NewBackup sample.db sample.failingClient) sample.t
                  sample.stream) = WOpen
  /\ streamDone (RunOnce (NewBackup sample.db sample.failingClient) sample.t
                   sample.stream) = false
  /\ returned (RunOnce (NewBackup sample.db sample.client) sample.t
                 sample.stream) = Returns None
  /\ writeSide (RunOnce (NewBackup sample.db sample.client) sample.t
                  sample.stream) = WClosed EOF.
Proof. repeat split; reflexivity. Qed.

(** A client that closes the reader lets the goroutine end: [RunOnce]
    returns nil although the stream was not read to its end. *)
Example RunOnce_closed_reader_returns_nil :
  returned (RunOnce (NewBackup sample.db sample.closingClient) sample.t
              sample.stream) = Returns None
  /\ writeSide (RunOnce (NewBackup sample.db sample.closingClient) sample.t
                  sample.stream) = WClosed ErrClosedPipe.
Proof. split; reflexivity. Qed.

End backup_facts.

(** ** OpenKV *)

Module auth_facts.

Import auth.

Section WithStores.

Variables SQL Badger NodeConfig : Type.
Variable SplitConnStr : string -> (string * string * string) + error.
Variable sqlauth_Open : string -> sqlauth_Options -> SQL + error.
Variable badgerauth_New : NodeConfig -> Badger + error.

(** A connection string that cannot be split is reported as it is. *)
Lemma OpenKV_unparsable (config : Config NodeConfig) err :
  SplitConnStr (KVBackend config) = inr err ->
  OpenKV SplitConnStr sqlauth_Open badgerauth_New config = (None, Some err).
Proof. intros Hs. unfold auth.OpenKV. rewrite Hs. reflexivity. Qed.

(** C9.  [OpenKV] goes by the driver of the connection string: [memory]
    gives the in-memory store; [pgxcockroach], [postgres], [cockroach] and
    [pgx] give what [sqlauth.Open] of the connection string gives;
    [badger] gives the badgerauth store, alone when no migration source is
    configured and inside the migration bridge over the opened source when
    one is; any other driver gives the error [unknown scheme] and no
    store.  A store that fails to open gives its error and no store. *)
Theorem OpenKV_dispatches_on_driver (config : Config NodeConfig)
    driver source implementation :
  SplitConnStr (KVBackend config) = inl (driver, source, implementation) ->
  (driver = "memory" -> OpenKV SplitConnStr sqlauth_Open badgerauth_New config = (Some MemauthKV, None))
  /\ (driver = "pgxcockroach" \/ driver = "postgres" \/ driver = "cockroach"
      \/ driver = "pgx" ->
      OpenKV SplitConnStr sqlauth_Open badgerauth_New config
      = match sqlauth_Open (KVBackend config)
                {| ApplicationName := "authservice" |} with
        | inl kv => (Some (SqlauthKV kv), None)
        | inr err => (None, Some err)
        end)
  /\ (driver = "badger" ->
      match badgerauth_New (Node config) with
      | inr err => OpenKV SplitConnStr sqlauth_Open badgerauth_New config = (None, Some err)
      | inl kv =>
          (SourceSQLAuthKVBackend (NodeMigration config) = "" ->
           OpenKV SplitConnStr sqlauth_Open badgerauth_New config = (Some (BadgerauthKV kv), None))
          /\ (SourceSQLAuthKVBackend (NodeMigration config) <> "" ->
              OpenKV SplitConnStr sqlauth_Open badgerauth_New config
              = match sqlauth_Open
                        (SourceSQLAuthKVBackend (NodeMigration config))
                        {| ApplicationName :=
                             "authservice (sqlauth->badgerauth migration)" |}
                with
                | inl src =>
                    (Some (MigrationKV src kv (NodeMigration config)), None)
                | inr err => (None, Some err)
                end)
      end)
  /\ (driver <> "memory" -> driver <> "pgxcockroach" -> driver <> "postgres" ->
      driver <> "cockroach" -> driver <> "pgx" -> driver <> "badger" ->
      OpenKV SplitConnStr sqlauth_Open badgerauth_New config
      = (None, Some (ErrsNew "unknown scheme: %q" [KVBackend config]))).
Proof.
  intros Hs. unfold auth.OpenKV. rewrite Hs.
  split; [intros ->; reflexivity |].
  split; [intros [-> | [-> | [-> | ->]]]; reflexivity |].
  split.
  - intros ->. cbn.
    destruct (badgerauth_New (Node config)) as [kv | err]; [| reflexivity].
    split.
    + intros ->. reflexivity.
    + intros Hsrc. apply String.eqb_neq in Hsrc. rewrite Hsrc. reflexivity.
  - intros H1 H2 H3 H4 H5 H6.
    apply String.eqb_neq in H1, H2, H3, H4, H5, H6.
    rewrite H1, H2, H3, H4, H5, H6. reflexivity.
Qed.

End WithStores.

Lemma OpenKV_dispatches_on_driver_witness :
  auth.OpenKV sample.SplitConnStr sample.sqlauth_Open
    sample.badgerauth_New (sample.authConfig "badger://" "")
  = (Some (BadgerauthKV
             {| badgerauth.config := sample.nodeConfig;
                badgerauth.records := ∅;
                badgerauth.log := [];
                badgerauth.clock := 0 |}), None)
  /\ auth.OpenKV sample.SplitConnStr sample.sqlauth_Open
       sample.badgerauth_New (sample.authConfig "memory://" "")
     = (Some MemauthKV, None)
  /\ auth.OpenKV sample.SplitConnStr sample.sqlauth_Open
       sample.badgerauth_New (sample.authConfig "redis://host" "")
     = (None, Some (ErrsNew "unknown scheme: %q" ["redis://host"])).
Proof.
  destruct (OpenKV_dispatches_on_driver _ _ _ sample.SplitConnStr
              sample.sqlauth_Open sample.badgerauth_New
              (sample.authConfig "badger://" "") "badger" "badger://" "badger"
              eq_refl) as (_ & _ & Hb & _).
  destruct (OpenKV_dispatches_on_driver _ _ _ sample.SplitConnStr
              sample.sqlauth_Open sample.badgerauth_New
              (sample.authConfig "memory://" "") "memory" "memory://" "memory"
              eq_refl) as (Hm & _).
  destruct (OpenKV_dispatches_on_driver _ _ _ sample.SplitConnStr
              sample.sqlauth_Open sample.badgerauth_New
              (sample.authConfig "redis://host" "") "redis" "redis://host"
              "redis" eq_refl) as (_ & _ & _ & Hu).
  split; [apply (Hb eq_refl); reflexivity |].
  split; [apply Hm; reflexivity |].
  apply Hu; discriminate.
Defined.

End auth_facts.

(** ** flusherDelegator: what a run shows *)

Module middleware_run_facts.

Import middleware middleware_trace middleware_facts.

Lemma delegated_app (xs ys : list Event) :
  delegated (xs ++ ys) = delegated xs ++ delegated ys.
Proof.
  induction xs as [| e xs IH]; [reflexivity |].
  destruct e; cbn; rewrite IH; reflexivity.
Qed.

Lemma measured_app (xs ys : list Event) :
  measured (xs ++ ys) = measured xs ++ measured ys.
Proof.
  induction xs as [| e xs IH]; [reflexivity |].
  destruct e; cbn; rewrite IH; reflexivity.
Qed.

Lemma firstByte_app (xs ys : list Event) :
  firstByte (xs ++ ys) = firstByte xs ++ firstByte ys.
Proof.
  induction xs as [| e xs IH]; [reflexivity |].
  destruct e; cbn; rewrite IH; reflexivity.
Qed.

Lemma last_cons_default (l : list Z) (x d : Z) :
  List.last l (List.last [x] d) = List.last (x :: l) d.
Proof.
  revert x. induction l as [| y l IH]; intros x; [reflexivity |].
  cbn [List.last] in *. destruct l; [reflexivity |]. apply IH.
Qed.

Lemma last_cons_any (l : list Z) (x d d' : Z) :
  List.last (x :: l) d = List.last (x :: l) d'.
Proof.
  revert x. induction l as [| y l IH]; intros x; [reflexivity |].
  cbn [List.last] in *. apply IH.
Qed.

(** One call on a delegator whose header is written and whose writer can
    flush. *)
Lemma step_after_header c f f' ev ok :
  step c f = (f', ev, ok) ->
  wroteHeader f = true -> isFlusher f = true ->
  ok = true /\ wroteHeader f' = true /\ isFlusher f' = true
  /\ atWriteHeaderFunc f' = atWriteHeaderFunc f
  /\ measured ev = []
  /\ delegated ev = requested [c]
  /\ status f' = List.last (delegated ev) (status f).
Proof.
  destruct f as [fl awh attfb st wr wh ob]; cbn. intros Hs -> ->.
  destruct c as [code | b n err |]; unfold step, Write, Flush, WriteHeader in Hs;
    cbn in Hs.
  - injection Hs as <- <- <-. destruct awh; cbn; repeat split.
  - destruct awh, attfb, ob; cbn in Hs; injection Hs as <- <- <-;
      cbn; repeat split.
  - destruct awh; cbn in Hs; injection Hs as <- <- <-; cbn; repeat split.
Qed.

Lemma run_after_header cs : forall f,
  wroteHeader f = true -> isFlusher f = true ->
  measured (snd (run cs f)) = []
  /\ delegated (snd (run cs f)) = requested cs
  /\ status (fst (run cs f)) = List.last (requested cs) (status f)
  /\ wroteHeader (fst (run cs f)) = true.
Proof.
  induction cs as [| c cs IH]; intros f Hw Hf; [cbn; auto |].
  cbn [run]. destruct (step c f) as [[f1 ev1] ok] eqn:Hs.
  destruct (step_after_header _ _ _ _ _ Hs Hw Hf)
    as (-> & Hw1 & Hf1 & _ & Hm & Hd & Hst).
  destruct (IH f1 Hw1 Hf1) as (IHm & IHd & IHst & IHw).
  destruct (run cs f1) as [f2 ev2]; cbn [fst snd] in *.
  rewrite measured_app, delegated_app, Hm, Hd, IHm, IHd, IHst, Hst, Hd.
  split; [reflexivity |]. split; [destruct c; reflexivity |].
  split; [| exact IHw].
  destruct c; cbn [requested]; try reflexivity.
  apply last_cons_default.
Qed.

(** The first call, when it is not [Flush], on a delegator with no header
    written. *)
Lemma step_first c f f' ev ok :
  step c f = (f', ev, ok) ->
  isFlush c = false -> wroteHeader f = false -> isFlusher f = true ->
  ok = true /\ wroteHeader f' = true /\ isFlusher f' = true
  /\ measured ev = (if atWriteHeaderFunc f then [headerOf c] else [])
  /\ delegated ev = sentBy c
  /\ status f' = headerOf c.
Proof.
  destruct f as [fl awh attfb st wr wh ob]; cbn. intros Hs Hc -> ->.
  destruct c as [code | b n err |]; try discriminate;
    unfold step, Write, WriteHeader in Hs; cbn in Hs.
  - injection Hs as <- <- <-. destruct awh; cbn; repeat split.
  - destruct awh, attfb, ob; cbn in Hs; injection Hs as <- <- <-;
      cbn; repeat split.
Qed.

(** X1.  Over every sequence of calls and from every state of the
    delegator, [atTimeToFirstByteFunc] is called at most once; it is not
    called at all when it is nil or when the first byte was observed
    before. *)
Theorem atTimeToFirstByteFunc_at_most_once cs f :
  (count isAtTimeToFirstByte (snd (run cs f)) <= 1)%nat
  /\ (observedTimeToFirstByte f = true ->
      count isAtTimeToFirstByte (snd (run cs f)) = 0%nat).
Proof. split; [apply run_ttfb_once | apply run_ttfb_observed]. Qed.

Lemma atTimeToFirstByteFunc_at_most_once_witness :
  count isAtTimeToFirstByte
    (snd (run [CallWrite hi 2 None; CallWrite hi 2 None] fresh)) = 1%nat
  /\ count isAtTimeToFirstByte
       (snd (run [CallWrite hi 2 None]
               (fst (run [CallWrite hi 2 None] fresh)))) = 0%nat.
Proof.
  split; [reflexivity |].
  apply (atTimeToFirstByteFunc_at_most_once [CallWrite hi 2 None]
           (fst (run [CallWrite hi 2 None] fresh))).
  reflexivity.
Defined.

(** X2.  The [written] counter after a run is the counter before plus
    the byte counts the wrapped writer returned, in [int64] arithmetic;
    [WriteHeader] and [Flush] leave it alone.  It is the exact sum as long
    as that fits an [int64]. *)
Theorem written_counts_the_bytes_written cs f :
  in_int64 (written f) ->
  written (fst (run cs f))
  = wrap64 (written f + sumWritten (snd (run cs f)))
  /\ (in_int64 (written f + sumWritten (snd (run cs f))) ->
      written (fst (run cs f)) = written f + sumWritten (snd (run cs f))).
Proof.
  intros Hin.
  assert (E : written (fst (run cs f))
              = wrap64 (written f + sumWritten (snd (run cs f)))).
  { destruct (run_written cs f) as [E | [E E']]; [exact E |].
    rewrite E, E', Z.add_0_r. symmetry. apply wrap64_id. exact Hin. }
  split; [exact E |]. intros Hsum. rewrite E. apply wrap64_id. exact Hsum.
Qed.

Lemma written_counts_the_bytes_written_witness :
  written (fst (run [CallWriteHeader 201; CallWrite hi 2 None; CallFlush;
                     CallWrite hi 1 (Some EOF)] fresh)) = 3.
Proof.
  destruct (written_counts_the_bytes_written
              [CallWriteHeader 201; CallWrite hi 2 None; CallFlush;
               CallWrite hi 1 (Some EOF)] fresh) as [_ Hexact].
  - unfold in_int64. cbn. lia.
  - apply Hexact. unfold in_int64. cbn. lia.
Defined.

(** X3.  When the first call on a delegator is [WriteHeader] or [Write],
    [atWriteHeaderFunc] (if there is one) is called exactly once in the
    whole run, with the status code of that first call: the code given to
    [WriteHeader], or 200 for a [Write].  Later calls, [Flush] and further
    [WriteHeader] calls included, do not call it again. *)
Theorem atWriteHeaderFunc_sees_the_first_status c cs f :
  isFlush c = false -> wroteHeader f = false -> isFlusher f = true ->
  measured (snd (run (c :: cs) f))
  = (if atWriteHeaderFunc f then [headerOf c] else []).
Proof.
  intros Hc Hw Hf. cbn [run].
  destruct (step c f) as [[f1 ev1] ok] eqn:Hs.
  destruct (step_first _ _ _ _ _ Hs Hc Hw Hf) as (-> & Hw1 & Hf1 & Hm & _).
  destruct (run_after_header cs f1 Hw1 Hf1) as (IHm & _).
  destruct (run cs f1) as [f2 ev2]; cbn [fst snd] in *.
  rewrite measured_app, Hm, IHm. apply app_nil_r.
Qed.

Lemma atWriteHeaderFunc_sees_the_first_status_witness :
  measured (snd (run [CallWriteHeader 404; CallWriteHeader 500; CallFlush;
                      CallWrite hi 2 None] fresh)) = [404].
Proof.
  apply (atWriteHeaderFunc_sees_the_first_status (CallWriteHeader 404)
           [CallWriteHeader 500; CallFlush; CallWrite hi 2 None] fresh);
    reflexivity.
Defined.

(** X4.  Every [WriteHeader] of the handler is delegated to the wrapped
    writer, a repeated one too: in a run that starts with [WriteHeader] or
    [Write], the wrapped writer receives the status codes the handler
    passed, in order, after a 200 of its own when the run starts with a
    [Write]. *)
Theorem WriteHeader_is_always_delegated c cs f :
  isFlush c = false -> wroteHeader f = false -> isFlusher f = true ->
  delegated (snd (run (c :: cs) f)) = sentBy c ++ requested cs.
Proof.
  intros Hc Hw Hf. cbn [run].
  destruct (step c f) as [[f1 ev1] ok] eqn:Hs.
  destruct (step_first _ _ _ _ _ Hs Hc Hw Hf) as (-> & Hw1 & Hf1 & _ & Hd & _).
  destruct (run_after_header cs f1 Hw1 Hf1) as (_ & IHd & _).
  destruct (run cs f1) as [f2 ev2]; cbn [fst snd] in *.
  rewrite delegated_app, Hd, IHd. reflexivity.
Qed.

Lemma WriteHeader_is_always_delegated_witness :
  delegated (snd (run [CallWrite hi 2 None; CallWriteHeader 404;
                       CallWriteHeader 500] fresh)) = [200; 404; 500].
Proof.
  apply (WriteHeader_is_always_delegated (CallWrite hi 2 None)
           [CallWriteHeader 404; CallWriteHeader 500] fresh); reflexivity.
Defined.

(** X5.  In a run that starts with [WriteHeader] or [Write], the status
    the delegator ends with is the code of the last [WriteHeader] of the
    handler, or the status of the first call when no [WriteHeader]
    follows it; the header is then marked as written. *)
Theorem status_is_the_last_header c cs f :
  isFlush c = false -> wroteHeader f = false -> isFlusher f = true ->
  status (fst (run (c :: cs) f)) = List.last (requested cs) (headerOf c)
  /\ wroteHeader (fst (run (c :: cs) f)) = true.
Proof.
  intros Hc Hw Hf. cbn [run].
  destruct (step c f) as [[f1 ev1] ok] eqn:Hs.
  destruct (step_first _ _ _ _ _ Hs Hc Hw Hf)
    as (-> & Hw1 & Hf1 & _ & _ & Hst).
  destruct (run_after_header cs f1 Hw1 Hf1) as (_ & _ & IHst & IHw).
  destruct (run cs f1) as [f2 ev2]; cbn [fst snd] in *.
  rewrite IHst, Hst. split; [reflexivity | exact IHw].
Qed.

Lemma status_is_the_last_header_witness :
  status (fst (run [CallWrite hi 2 None; CallWriteHeader 404; CallFlush]
                 fresh)) = 404.
Proof.
  destruct (status_is_the_last_header (CallWrite hi 2 None)
              [CallWriteHeader 404; CallFlush] fresh eq_refl eq_refl eq_refl)
    as [Hst _].
  exact Hst.
Defined.

(** The callbacks a delegator has do not change. *)
Lemma step_callbacks c f f' ev ok :
  step c f = (f', ev, ok) ->
  atWriteHeaderFunc f' = atWriteHeaderFunc f
  /\ atTimeToFirstByteFunc f' = atTimeToFirstByteFunc f
  /\ (atWriteHeaderFunc f = false -> measured ev = [])
  /\ (atTimeToFirstByteFunc f = false -> firstByte ev = []).
Proof.
  destruct f as [fl awh attfb st wr wh ob].
  destruct c as [code | b n err |]; unfold step, Write, Flush, WriteHeader;
    cbn.
  - intros [= <- <- <-]. destruct awh, wh; cbn; repeat split;
      try reflexivity; discriminate.
  - destruct wh, awh, attfb, ob; cbn; intros [= <- <- <-]; cbn;
      repeat split; try reflexivity; discriminate.
  - destruct wh, awh, fl; cbn; intros [= <- <- <-]; cbn;
      repeat split; try reflexivity; discriminate.
Qed.

(** X8.  A callback that is nil is never called: over every sequence of
    calls, a delegator without [atWriteHeaderFunc] makes no header
    measurement and one without [atTimeToFirstByteFunc] makes no
    first-byte measurement. *)
Theorem nil_callbacks_are_never_called cs : forall f,
  (atWriteHeaderFunc f = false -> measured (snd (run cs f)) = [])
  /\ (atTimeToFirstByteFunc f = false -> firstByte (snd (run cs f)) = []).
Proof.
  induction cs as [| c cs IH]; intros f; [cbn; auto |].
  cbn [run]. destruct (step c f) as [[f1 ev1] ok] eqn:Hs.
  destruct (step_callbacks _ _ _ _ _ Hs) as (Ha & Ht & Hm & Hb).
  destruct ok; [| cbn; auto].
  destruct (IH f1) as [IHm IHb].
  destruct (run cs f1) as [f2 ev2]; cbn [fst snd] in *.
  rewrite measured_app, firstByte_app. split; intros Hnil.
  - rewrite Hm, IHm by congruence. reflexivity.
  - rewrite Hb, IHb by congruence. reflexivity.
Qed.

Lemma nil_callbacks_are_never_called_witness :
  measured (snd (run [CallFlush; CallWrite hi 2 None; CallWriteHeader 500]
                   (built true false false))) = []
  /\ firstByte (snd (run [CallFlush; CallWrite hi 2 None; CallWriteHeader 500]
                       (built true false false))) = [].
Proof.
  destruct (nil_callbacks_are_never_called
              [CallFlush; CallWrite hi 2 None; CallWriteHeader 500]
              (built true false false)) as [Hm Hb].
  split; [apply Hm | apply Hb]; reflexivity.
Defined.

Lemma firstByte_count (evs : list Event) :
  List.length (firstByte evs) = count isAtTimeToFirstByte evs.
Proof.
  unfold count. induction evs as [| e evs IH]; [reflexivity |].
  destruct e; cbn; rewrite ?IH; reflexivity.
Qed.

Lemma run_before_first_write pre : forall f cs2,
  forallb (beforeFirstWrite (isFlusher f)) pre = true ->
  firstByte (snd (run pre f)) = []
  /\ observedTimeToFirstByte (fst (run pre f)) = observedTimeToFirstByte f
  /\ atTimeToFirstByteFunc (fst (run pre f)) = atTimeToFirstByteFunc f
  /\ status (fst (run pre f)) = List.last (requested pre) (status f)
  /\ wroteHeader (fst (run pre f))
     = (match requested pre with [] => wroteHeader f | _ => true end)
  /\ run (pre ++ cs2) f
     = (fst (run cs2 (fst (run pre f))),
        snd (run pre f) ++ snd (run cs2 (fst (run pre f)))).
Proof.
  induction pre as [| c pre IH]; intros f cs2 Hpre.
  { cbn. repeat (split; [reflexivity |]). destruct (run cs2 f); reflexivity. }
  cbn in Hpre. apply andb_true_iff in Hpre as [Hc Hpre].
  destruct c as [code | b n err |]; [| discriminate |].
  - cbn [app run step requested]. unfold WriteHeader.
    destruct (IH (set_header code f) cs2 Hpre)
      as (IHb & IHo & IHt & IHs & IHw & IHr).
    rewrite IHr.
    destruct (run pre (set_header code f)) as [f2 ev2]; cbn [fst snd] in *.
    destruct (run cs2 f2) as [f3 ev3]; cbn [fst snd] in *.
    rewrite firstByte_app, IHb, IHo, IHt, IHs, IHw.
    split; [destruct (atWriteHeaderFunc f && negb (wroteHeader f));
            reflexivity |].
    do 2 (split; [reflexivity |]).
    split; [apply (last_cons_default (requested pre) code (status f)) |].
    split; [destruct (requested pre); reflexivity |].
    rewrite app_assoc. reflexivity.
  - cbn in Hc.
    destruct (IH f cs2 Hpre) as (IHb & IHo & IHt & IHs & IHw & IHr).
    assert (Hstep : exists ev, step CallFlush f = (f, ev, true)
                               /\ firstByte ev = []).
    { destruct f as [fl awh attfb st wr wh ob]; cbn in Hc; subst fl.
      unfold step, Flush, WriteHeader.
      destruct wh, awh; cbn; eexists; split; reflexivity. }
    destruct Hstep as (ev & Hstep & Hev).
    cbn [app run requested]. rewrite Hstep, IHr.
    destruct (run pre f) as [f2 ev2]; cbn [fst snd] in *.
    destruct (run cs2 f2) as [f3 ev3]; cbn [fst snd] in *.
    rewrite firstByte_app, Hev, IHb.
    repeat (split; [reflexivity || assumption |]).
    rewrite app_assoc. reflexivity.
Qed.

(** X6.  [atTimeToFirstByteFunc] is called at the first [Write] with the
    status in effect then: the code of the last [WriteHeader] of the
    handler before that [Write], or 200 when there was none, whatever
    [Flush] calls came before.  Nothing after the first [Write] calls it
    again. *)
Theorem atTimeToFirstByteFunc_sees_the_status_of_the_first_Write
    pre b n err rest f :
  forallb (beforeFirstWrite (isFlusher f)) pre = true ->
  wroteHeader f = false -> observedTimeToFirstByte f = false ->
  atTimeToFirstByteFunc f = true ->
  firstByte (snd (run (pre ++ CallWrite b n err :: rest) f))
  = [List.last (requested pre) StatusOK].
Proof.
  intros Hpre Hw Ho Ht.
  destruct (run_before_first_write pre f (CallWrite b n err :: rest) Hpre)
    as (Hb & Hob & Hat & Hst & Hwr & Hrun).
  rewrite Hrun. cbn [snd].
  rewrite firstByte_app, Hb. cbn [app].
  destruct (run pre f) as [f1 ev1]; cbn [fst snd] in *.
  rewrite Ho in Hob. rewrite Ht in Hat. rewrite Hw in Hwr.
  cbn [run step].
  destruct (Write b n err f1) as [[f2 evw] res] eqn:HW.
  assert (Hf2 : observedTimeToFirstByte f2 = true
                /\ firstByte evw = [List.last (requested pre) StatusOK]).
  { unfold Write, WriteHeader in HW.
    destruct f1 as [fl awh attfb st wr wh ob]; cbn in *. subst attfb ob.
    destruct (requested pre) as [| code codes].
    - subst wh. cbn in HW. injection HW as <- <- _.
      destruct awh; cbn; split; reflexivity.
    - subst wh. cbn in HW. injection HW as <- <- _.
      cbn [firstByte observedTimeToFirstByte set_observed add_written app].
      split; [reflexivity |]. cbn [status]. rewrite Hst.
      f_equal. apply last_cons_any. }
  destruct Hf2 as [Hobs Hfb].
  pose proof (run_ttfb_observed rest f2 Hobs) as Hnone.
  destruct (run rest f2) as [f3 ev3]; cbn [fst snd] in *.
  rewrite firstByte_app, Hfb.
  rewrite <- firstByte_count in Hnone.
  destruct (firstByte ev3); [reflexivity | discriminate].
Qed.

Lemma atTimeToFirstByteFunc_sees_the_status_of_the_first_Write_witness :
  firstByte (snd (run [CallFlush; CallWriteHeader 100; CallWriteHeader 404;
                       CallFlush; CallWrite hi 2 None; CallWriteHeader 500;
                       CallWrite hi 2 None] fresh)) = [404].
Proof.
  apply (atTimeToFirstByteFunc_sees_the_status_of_the_first_Write
           [CallFlush; CallWriteHeader 100; CallWriteHeader 404; CallFlush]
           hi 2 None
           [CallWriteHeader 500; CallWrite hi 2 None] fresh); reflexivity.
Defined.

End middleware_run_facts.

(** ** The admin service: more of what the RPCs do *)

Module admin_more_facts.

Import pb badgerauth badgerauth_facts.

Section WithCollaborators.

Context `{Collaborators}.

(** X9.  Once the reason and the key of a request have passed, each admin
    operation answers with a response, whatever the store answers: an
    error of the store comes with a non-nil response, only the two checks
    before the store give none. *)
Theorem response_is_set_once_the_store_is_reached admin now key keyHash :
  authdb.SetBytes key = inl keyHash ->
  (forall reason, reason <> "" ->
     snd (fst (InvalidateRecord admin now
                 {| InvalidateRecordRequest_Key := key;
                    InvalidateRecordRequest_Reason := reason |}))
     = Some mkInvalidateRecordResponse)
  /\ snd (fst (UnpublishRecord admin {| UnpublishRecordRequest_Key := key |}))
     = Some mkUnpublishRecordResponse
  /\ snd (fst (DeleteRecord admin {| DeleteRecordRequest_Key := key |}))
     = Some mkDeleteRecordResponse.
Proof.
  intros Hkey. unfold InvalidateRecord, UnpublishRecord, DeleteRecord.
  cbn [InvalidateRecordRequest_Key InvalidateRecordRequest_Reason
       UnpublishRecordRequest_Key DeleteRecordRequest_Key].
  rewrite Hkey. split; [| split].
  - intros reason Hreason. apply String.eqb_neq in Hreason. rewrite Hreason.
    destruct (updateRecord _ _ _ _); reflexivity.
  - destruct (updateRecord _ _ _ _); reflexivity.
  - destruct (deleteRecord _ _); reflexivity.
Qed.

(** X11.  A successful [InvalidateRecord] touches nothing but the
    invalidation: the record stored under the key keeps its
    [CreatedAtUnix], [Public], [SatelliteAddress], [MacaroonHead],
    [EncryptedSecretKey], [EncryptedAccessGrant] and [ExpiresAtUnix], and
    the records under all other keys are the same. *)
Theorem InvalidateRecord_changes_only_the_invalidation
    admin now req keyHash r :
  InvalidateRecordRequest_Reason req <> "" ->
  authdb.SetBytes (InvalidateRecordRequest_Key req) = inl keyHash ->
  records (Admin_db admin) !! keyHash = Some r ->
  exists r',
    records (Admin_db (fst (fst (InvalidateRecord admin now req)))) !! keyHash
    = Some r'
    /\ CreatedAtUnix r' = CreatedAtUnix r
    /\ Public r' = Public r
    /\ SatelliteAddress r' = SatelliteAddress r
    /\ MacaroonHead r' = MacaroonHead r
    /\ EncryptedSecretKey r' = EncryptedSecretKey r
    /\ EncryptedAccessGrant r' = EncryptedAccessGrant r
    /\ ExpiresAtUnix r' = ExpiresAtUnix r
    /\ forall k, k <> keyHash ->
         records (Admin_db (fst (fst (InvalidateRecord admin now req)))) !! k
         = records (Admin_db admin) !! k.
Proof.
  intros Hreason Hkey Hr. unfold InvalidateRecord.
  apply String.eqb_neq in Hreason. rewrite Hreason, Hkey.
  rewrite (updateRecord_stored _ _ _ _ _ Hr). cbn [fst Admin_db].
  eexists. split; [apply Append_records_mutation |].
  do 7 (split; [reflexivity |]).
  intros k Hk. apply Append_records_other. exact Hk.
Qed.

Lemma InvalidateRecord_db admin now req keyHash :
  InvalidateRecordRequest_Reason req <> "" ->
  authdb.SetBytes (InvalidateRecordRequest_Key req) = inl keyHash ->
  Admin_db (fst (fst (InvalidateRecord admin now req)))
  = fst (updateRecord (Admin_db admin) Invalidate keyHash
           (fun record =>
              set_InvalidationReason (InvalidateRecordRequest_Reason req)
                (set_InvalidatedAtUnix now record))).
Proof.
  intros Hreason Hkey. unfold InvalidateRecord.
  apply String.eqb_neq in Hreason. rewrite Hreason, Hkey.
  destruct (updateRecord _ _ _ _); reflexivity.
Qed.

Lemma UnpublishRecord_db admin req keyHash :
  authdb.SetBytes (UnpublishRecordRequest_Key req) = inl keyHash ->
  Admin_db (fst (fst (UnpublishRecord admin req)))
  = fst (updateRecord (Admin_db admin) Unpublish keyHash
           (fun record => set_Public false record)).
Proof.
  intros Hkey. unfold UnpublishRecord. rewrite Hkey.
  destruct (updateRecord _ _ _ _); reflexivity.
Qed.

Lemma updateRecord_twice db op1 op2 keyHash fn1 fn2 r :
  records db !! keyHash = Some r ->
  records (fst (updateRecord (fst (updateRecord db op1 keyHash fn1))
                  op2 keyHash fn2)) !! keyHash
  = Some (let r1 := set_State (dominate (State (fn1 r)) (stateOf op1)) (fn1 r)
          in set_State (dominate (State (fn2 r1)) (stateOf op2)) (fn2 r1)).
Proof.
  intros Hr. rewrite (updateRecord_stored db op1 keyHash fn1 r Hr).
  cbn [fst].
  rewrite (updateRecord_stored _ op2 keyHash fn2 _
             (Append_records_mutation _ _ _ _ _)).
  cbn [fst]. apply Append_records_mutation.
Qed.

(** X12.  Invalidating and unpublishing a stored record can be done in
    either order: the record stored under the key afterwards is the same. *)
Theorem invalidate_and_unpublish_commute admin now key keyHash reason r :
  reason <> "" ->
  authdb.SetBytes key = inl keyHash ->
  records (Admin_db admin) !! keyHash = Some r ->
  records (Admin_db (fst (fst (UnpublishRecord
                                 (fst (fst (InvalidateRecord admin now
                                    {| InvalidateRecordRequest_Key := key;
                                       InvalidateRecordRequest_Reason :=
                                         reason |})))
                                 {| UnpublishRecordRequest_Key := key |}))))
    !! keyHash
  = records (Admin_db (fst (fst (InvalidateRecord
                                   (fst (fst (UnpublishRecord admin
                                      {| UnpublishRecordRequest_Key :=
                                           key |})))
                                   now
                                   {| InvalidateRecordRequest_Key := key;
                                      InvalidateRecordRequest_Reason :=
                                        reason |})))) !! keyHash.
Proof.
  intros Hreason Hkey Hr.
  repeat first
    [ rewrite (UnpublishRecord_db _ {| UnpublishRecordRequest_Key := key |}
                 keyHash Hkey)
    | rewrite (InvalidateRecord_db _ _
                 {| InvalidateRecordRequest_Key := key;
                    InvalidateRecordRequest_Reason := reason |}
                 keyHash Hreason Hkey) ].
  cbn [InvalidateRecordRequest_Reason].
  rewrite !(updateRecord_twice _ _ _ _ _ _ _ Hr).
  destruct r as [c p s m k g x i rs st]. destruct st; reflexivity.
Qed.

End WithCollaborators.

#[local] Existing Instance sample.collaborators.

Lemma response_is_set_once_the_store_is_reached_witness :
  snd (fst (DeleteRecord sample.admin
              {| DeleteRecordRequest_Key := sample.key |}))
  = Some mkDeleteRecordResponse.
Proof.
  destruct (response_is_set_once_the_store_is_reached sample.admin sample.now
              sample.key sample.key eq_refl) as (_ & _ & HD).
  exact HD.
Defined.

Lemma InvalidateRecord_changes_only_the_invalidation_witness :
  exists r',
    records (Admin_db (fst (fst (InvalidateRecord sample.admin sample.now
                                   {| InvalidateRecordRequest_Key := sample.key;
                                      InvalidateRecordRequest_Reason :=
                                        "abuse" |})))) !! sample.key
    = Some r'
    /\ Public r' = true
    /\ SatelliteAddress r' = "sat.example:7777".
Proof.
  destruct (InvalidateRecord_changes_only_the_invalidation
              sample.admin sample.now
              {| InvalidateRecordRequest_Key := sample.key;
                 InvalidateRecordRequest_Reason := "abuse" |}
              sample.key sample.record)
    as (r' & Hrec & _ & Hpub & Hsat & _).
  - discriminate.
  - reflexivity.
  - exact sample_stored.
  - exists r'. repeat split; assumption.
Defined.

Lemma invalidate_and_unpublish_commute_witness :
  records (Admin_db (fst (fst (UnpublishRecord
                                 (fst (fst (InvalidateRecord sample.admin
                                    sample.now
                                    {| InvalidateRecordRequest_Key :=
                                         sample.key;
                                       InvalidateRecordRequest_Reason :=
                                         "abuse" |})))
                                 {| UnpublishRecordRequest_Key :=
                                      sample.key |}))))
    !! sample.key
  = records (Admin_db (fst (fst (InvalidateRecord
                                   (fst (fst (UnpublishRecord sample.admin
                                      {| UnpublishRecordRequest_Key :=
                                           sample.key |})))
                                   sample.now
                                   {| InvalidateRecordRequest_Key :=
                                        sample.key;
                                      InvalidateRecordRequest_Reason :=
                                        "abuse" |})))) !! sample.key.
Proof.
  apply (invalidate_and_unpublish_commute sample.admin sample.now sample.key
           sample.key "abuse" sample.record).
  - discriminate.
  - reflexivity.
  - exact sample_stored.
Defined.

End admin_more_facts.

(** ** The two time layouts: reading the digits back *)

Module time_digits_facts.

Import time time_digits path_facts.

Lemma digitChar_inj a b :
  0 <= a <= 9 -> 0 <= b <= 9 -> digitChar a = digitChar b -> a = b.
Proof.
  intros Ha Hb E. unfold digitChar in E.
  apply (f_equal nat_of_ascii) in E.
  rewrite !nat_ascii_embedding in E by lia. lia.
Qed.

Lemma appendInt_two x : 0 <= x < 100 -> appendInt x 2 = two x.
Proof.
  intros Hx.
  assert (Hall :
    forallb (fun n => String.eqb (appendInt (Z.of_nat n) 2) (two (Z.of_nat n)))
      (List.seq 0 100) = true) by (vm_compute; reflexivity).
  rewrite List.forallb_forall in Hall.
  specialize (Hall (Z.to_nat x)).
  rewrite Z2Nat.id in Hall by lia.
  apply String.eqb_eq, Hall, List.in_seq. lia.
Qed.

Lemma appendInt_four x : 0 <= x < 10000 -> appendInt x 4 = four x.
Proof.
  intros Hx.
  assert (Hall :
    forallb (fun n => String.eqb (appendInt (Z.of_nat n) 4) (four (Z.of_nat n)))
      (List.seq 0 (Z.to_nat 10000)) = true) by (vm_compute; reflexivity).
  rewrite List.forallb_forall in Hall.
  specialize (Hall (Z.to_nat x)).
  rewrite Z2Nat.id in Hall by lia.
  apply String.eqb_eq, Hall, List.in_seq. lia.
Qed.

Lemma two_inj x y : 0 <= x < 100 -> 0 <= y < 100 -> two x = two y -> x = y.
Proof.
  intros Hx Hy E. unfold two in E. injection E as E1 E2.
  apply digitChar_inj in E1, E2;
    Z.to_euclidean_division_equations; lia.
Qed.

Lemma four_inj x y :
  0 <= x < 10000 -> 0 <= y < 10000 -> four x = four y -> x = y.
Proof.
  intros Hx Hy E. unfold four in E. injection E as E1 E2 E3 E4.
  apply digitChar_inj in E1, E2, E3, E4;
    Z.to_euclidean_division_equations; lia.
Qed.

(** The RFC 3339 layout of a time in range, digit by digit. *)
Lemma FormatRFC3339_digits t :
  valid t ->
  FormatRFC3339 t
  = four (Year t) +:+ "-" +:+ two (Month t) +:+ "-" +:+ two (Day t) +:+ "T"
    +:+ two (Hour t) +:+ ":" +:+ two (Minute t) +:+ ":" +:+ two (Second t)
    +:+ "Z".
Proof.
  intros (HY & HM & HD & Hh & Hm & Hs). unfold FormatRFC3339.
  rewrite appendInt_four by lia. rewrite !appendInt_two by lia. reflexivity.
Qed.

(** The RFC 3339 time stamp determines the time to the second: two
    readings of the clock with fields in range that print the same agree
    on everything but the nanoseconds. *)
Lemma FormatRFC3339_injective t1 t2 :
  valid t1 -> valid t2 -> FormatRFC3339 t1 = FormatRFC3339 t2 ->
  truncateSecond t1 = truncateSecond t2.
Proof.
  intros V1 V2 E.
  rewrite (FormatRFC3339_digits t1 V1), (FormatRFC3339_digits t2 V2) in E.
  destruct V1 as (HY1 & HM1 & HD1 & Hh1 & Hm1 & Hs1).
  destruct V2 as (HY2 & HM2 & HD2 & Hh2 & Hm2 & Hs2).
  destruct t1 as [Y1 M1 D1 h1 m1 s1 n1], t2 as [Y2 M2 D2 h2 m2 s2 n2];
    unfold truncateSecond; cbn in *.
  unfold four, two in E. rewrite !append_cons, !append_nil_l in E.
  injection E as Ey1 Ey2 Ey3 Ey4 EM1 EM2 ED1 ED2 Eh1 Eh2 Em1 Em2 Es1 Es2.
  assert (EY : four Y1 = four Y2) by (unfold four; congruence).
  assert (EM : two M1 = two M2) by (unfold two; congruence).
  assert (ED : two D1 = two D2) by (unfold two; congruence).
  assert (Eh : two h1 = two h2) by (unfold two; congruence).
  assert (Em : two m1 = two m2) by (unfold two; congruence).
  assert (Es : two s1 = two s2) by (unfold two; congruence).
  apply four_inj in EY; [| lia | lia].
  apply two_inj in EM, ED, Eh, Em, Es; try lia.
  congruence.
Qed.

(** The two layouts print nothing below the second. *)
Lemma Format_truncateSecond t :
  FormatDate (truncateSecond t) = FormatDate t
  /\ FormatRFC3339 (truncateSecond t) = FormatRFC3339 t.
Proof. split; reflexivity. Qed.

End time_digits_facts.

(** ** The backup job: outcome and object key of a run *)

Module backup_more_facts.

Import badgerauth backup_call path_facts time_facts time_digits
  time_digits_facts backup_facts.

Lemma FormatDate_nonempty t : time.FormatDate t <> "".
Proof.
  unfold time.FormatDate. intros [E _]%append_eq_nil.
  exact (appendInt_nonempty _ _ E).
Qed.

Lemma objectKey_Join b t stream :
  objectKey b t stream
  = path.Join [prefix b; time.FormatDate t; time.FormatRFC3339 t].
Proof. unfold objectKey. rewrite RunOnce_calls. reflexivity. Qed.

Lemma Join_with_date p t :
  path.Join [p; time.FormatDate t; time.FormatRFC3339 t]
  = path.Clean (path.joinBuf "" [p; time.FormatDate t; time.FormatRFC3339 t]).
Proof.
  unfold path.Join. cbn [forallb].
  assert (Hd : (time.FormatDate t =? "")%string = false)
    by (apply String.eqb_neq, FormatDate_nonempty).
  rewrite Hd. destruct (p =? "")%string; reflexivity.
Qed.

(** X13.  The only error [RunOnce] ever returns is the error of the
    upload, made a backup error.  An error of the snapshot stream never
    comes back from the goroutine: it is handed to the pipe, and
    [group.Wait()] reports nil. *)
Theorem RunOnce_returns_only_the_upload_error b t stream e :
  returned (RunOnce b t stream) = Returns (Some e) ->
  exists err,
    PutObject_err (upload b t stream) = Some err
    /\ e = ClassNew BackupError "upload object: %w" err.
Proof.
  unfold RunOnce, upload.
  destruct (streamBackup _ _) as [serr |]; cbn;
    destruct (PutObject_err _) as [uerr |]; cbn;
    intros [= <-] || discriminate; eauto.
Qed.

(** X14.  The object key of a run is never empty and always a clean path:
    whatever the prefix of the job, it has no empty element, no [.]
    element and no slash at its end. *)
Theorem objectKey_is_clean b t stream :
  objectKey b t stream <> ""
  /\ path.Clean (objectKey b t stream) = objectKey b t stream.
Proof.
  rewrite objectKey_Join, Join_with_date.
  split; [apply Clean_nonempty | apply Clean_idempotent].
Qed.

Lemma fold_plain_after r st l :
  List.Forall (fun e => path.plain e = true) l ->
  fold_left (path.cleanStep r) l st = rev l ++ st.
Proof. apply fold_plain. Qed.

Lemma plain_noSlash e : path.plain e = true -> path.noSlash e = true.
Proof. intros He. apply plain_inv in He. tauto. Qed.

(** The elements of a clean path that ends in ordinary elements. *)
Lemma split_Clean_plain_tail (p : string) (l : list string) :
  p <> "" -> l <> [] ->
  List.Forall (fun e => path.plain e = true) l ->
  exists front,
    path.split (path.Clean (p +:+ String path.slash (path.join l)))
    = front ++ l.
Proof.
  intros Hp Hl Hall.
  assert (Hne : p +:+ String path.slash (path.join l) <> "").
  { intros [E _]%append_eq_nil. exact (Hp E). }
  assert (Hlns : List.Forall (fun e => path.noSlash e = true) l).
  { eapply List.Forall_impl; [| exact Hall]. apply plain_noSlash. }
  rewrite (Clean_unfold _ Hne). rewrite rooted_app by exact Hp.
  rewrite split_app, fold_left_app.
  rewrite (split_join l Hl Hlns).
  rewrite fold_plain by exact Hall.
  pose proof (Clean_cleanOut p) as Hout.
  set (st := fold_left (path.cleanStep (path.rooted p)) (path.split p) [])
    in *.
  pose proof (cleanOut_elements _ _ Hout) as Hel.
  assert (Hns : List.Forall (fun e => path.noSlash e = true) (rev st ++ l)).
  { apply List.Forall_app. split.
    - apply List.Forall_rev. eapply List.Forall_impl; [| exact Hel].
      cbn. intros e He. apply element_inv in He. tauto.
    - exact Hlns. }
  assert (Hrev : rev (rev l ++ st) = rev st ++ l)
    by (rewrite rev_app_distr, rev_involutive; reflexivity).
  assert (Hnil : rev st ++ l <> []).
  { destruct (rev st); [exact Hl | discriminate]. }
  unfold path.render.
  destruct (rev l ++ st) as [| x xs].
  { exfalso. apply Hnil. symmetry. exact Hrev. }
  rewrite Hrev.
  destruct (path.rooted p).
  - exists ("" :: rev st). rewrite split_slash, split_join by assumption.
    reflexivity.
  - exists (rev st). apply split_join; assumption.
Qed.

Lemma objectKey_split b t stream :
  exists front,
    path.split (objectKey b t stream)
    = front ++ [time.appendInt (time.Year t) 4;
                time.appendInt (time.Month t) 2;
                time.appendInt (time.Day t) 2;
                time.FormatRFC3339 t].
Proof.
  rewrite objectKey_Join.
  set (l := [time.appendInt (time.Year t) 4; time.appendInt (time.Month t) 2;
             time.appendInt (time.Day t) 2; time.FormatRFC3339 t]).
  assert (Hall : List.Forall (fun e => path.plain e = true) l).
  { repeat constructor; try apply plain_appendInt. apply plain_FormatRFC3339. }
  assert (Hjoin : path.join l
                  = time.FormatDate t
                    +:+ String path.slash (time.FormatRFC3339 t)).
  { unfold l, time.FormatDate. cbn [path.join].
    rewrite !append_assoc. reflexivity. }
  rewrite Join_with_date.
  assert (Hd : (time.FormatDate t =? "")%string = false)
    by (apply String.eqb_neq, FormatDate_nonempty).
  destruct (String.eqb_spec (prefix b) "") as [E | Hp].
  - rewrite E.
    change (path.joinBuf "" [""; time.FormatDate t; time.FormatRFC3339 t])
      with (path.joinBuf "" [time.FormatDate t; time.FormatRFC3339 t]).
    rewrite joinBuf_first by apply FormatDate_nonempty.
    cbn [path.joinRest]. rewrite append_nil_r, <- Hjoin.
    exists []. cbn [app].
    rewrite Clean_plain.
    + apply split_join; [discriminate |].
      eapply List.Forall_impl; [| exact Hall]. apply plain_noSlash.
    + rewrite split_join; [exact Hall | discriminate |].
      eapply List.Forall_impl; [| exact Hall]. apply plain_noSlash.
  - rewrite joinBuf_first by exact Hp. cbn [path.joinRest].
    rewrite append_nil_r, <- Hjoin.
    apply split_Clean_plain_tail; [exact Hp | discriminate | exact Hall].
Qed.

(** X15.  Whatever the prefix and the node ID of the job, the object key
    ends in the four path elements year ([yyyy]), month ([mm]), day
    ([dd]) and RFC 3339 time stamp of the run. *)
Theorem objectKey_ends_with_date_and_time b t stream :
  exists front,
    path.split (objectKey b t stream)
    = front ++ [time.appendInt (time.Year t) 4;
                time.appendInt (time.Month t) 2;
                time.appendInt (time.Day t) 2;
                time.FormatRFC3339 t].
Proof. apply objectKey_split. Qed.

(** X16.  The object key tells the time of a run to the second and no
    further.  Two runs, of the same job or of different ones, that produce
    the same key were started within the same second (clock fields in
    range); and two runs of one job started within the same second upload
    to the same key. *)
Theorem objectKey_determines_the_second b1 b2 t1 t2 stream1 stream2 :
  valid t1 -> valid t2 ->
  (objectKey b1 t1 stream1 = objectKey b2 t2 stream2 ->
   truncateSecond t1 = truncateSecond t2)
  /\ (truncateSecond t1 = truncateSecond t2 ->
      objectKey b1 t1 stream1 = objectKey b1 t2 stream2).
Proof.
  intros V1 V2. split.
  - intros E.
    destruct (objectKey_split b1 t1 stream1) as [front1 H1].
    destruct (objectKey_split b2 t2 stream2) as [front2 H2].
    rewrite E in H1. rewrite H2 in H1.
    apply (f_equal (fun l => List.last l "")) in H1.
    change (front2 ++ [?a; ?b; ?c; ?d]) with (front2 ++ [a; b; c] ++ [d]) in H1.
    change (front1 ++ [?a; ?b; ?c; ?d]) with (front1 ++ [a; b; c] ++ [d]) in H1.
    rewrite !app_assoc, !List.last_last in H1.
    apply FormatRFC3339_injective; [assumption | assumption | congruence].
  - intros E. rewrite !objectKey_Join.
    destruct (Format_truncateSecond t1) as [<- <-].
    destruct (Format_truncateSecond t2) as [<- <-].
    rewrite E. reflexivity.
Qed.

Section WithCollaborators.

Context `{Collaborators}.

(** X17.  With an empty prefix the key has no leading slash: it starts
    with the node ID and reads [<nodeID>/<yyyy>/<mm>/<dd>/<RFC3339>]. *)
Theorem objectKey_with_empty_prefix db client t stream :
  Prefix (Backup (config db)) = "" ->
  path.plain (NodeID_String (ID (config db))) = true ->
  objectKey (NewBackup db client) t stream
  = NodeID_String (ID (config db)) +:+ "/"
    +:+ time.appendInt (time.Year t) 4 +:+ "/"
    +:+ time.appendInt (time.Month t) 2 +:+ "/"
    +:+ time.appendInt (time.Day t) 2 +:+ "/"
    +:+ time.FormatRFC3339 t.
Proof.
  intros Hprefix Hid.
  pose proof (plain_inv _ Hid) as (Hns & Hne & _).
  assert (Hsplit : path.split (NodeID_String (ID (config db)))
                   = [NodeID_String (ID (config db))])
    by (apply split_noSlash; exact Hns).
  rewrite objectKey_Join. cbn [prefix NewBackup]. rewrite Hprefix.
  assert (Hpre : path.Join [""; NodeID_String (ID (config db))]
                 = NodeID_String (ID (config db))).
  { unfold path.Join. cbn [forallb].
    apply String.eqb_neq in Hne as Hne'. rewrite Hne'. cbn.
    rewrite Hne'. cbn. apply Clean_plain. rewrite Hsplit.
    constructor; [exact Hid | constructor]. }
  rewrite Hpre, Join_with_date, joinBuf_first by exact Hne.
  cbn [path.joinRest]. rewrite append_nil_r.
  transitivity (NodeID_String (ID (config db))
                +:+ String path.slash (time.FormatDate t
                +:+ String path.slash (time.FormatRFC3339 t))).
  - apply Clean_plain. rewrite !split_app, Hsplit, split_FormatDate.
    rewrite (split_noSlash (time.FormatRFC3339 t))
      by (apply plain_noSlash, plain_FormatRFC3339).
    repeat constructor; try apply plain_appendInt;
      [exact Hid | apply plain_FormatRFC3339].
  - unfold time.FormatDate. rewrite !append_assoc. reflexivity.
Qed.

End WithCollaborators.

#[local] Existing Instance sample.collaborators.

Lemma RunOnce_returns_only_the_upload_error_witness :
  exists err,
    PutObject_err (upload (NewBackup sample.db sample.failingClient) sample.t
                     sample.stream) = Some err
    /\ ClassNew BackupError "upload object: %w" (Foreign "connection refused")
       = ClassNew BackupError "upload object: %w" err.
Proof.
  apply (RunOnce_returns_only_the_upload_error
           (NewBackup sample.db sample.failingClient) sample.t sample.stream
           (ClassNew BackupError "upload object: %w"
              (Foreign "connection refused"))).
  reflexivity.
Defined.

Lemma objectKey_with_empty_prefix_witness :
  objectKey (NewBackup sample_more.dbNoPrefix sample.client) sample.t
    sample.stream
  = "mynodeid/2022/04/13/2022-04-13T03:42:07Z".
Proof.
  rewrite (objectKey_with_empty_prefix sample_more.dbNoPrefix sample.client
             sample.t sample.stream).
  - reflexivity.
  - reflexivity.
  - vm_compute. reflexivity.
Defined.

Lemma sample_valid : valid sample.t.
Proof. unfold valid. cbn. lia. Qed.

Lemma sample_valid_later :
  valid {| time.Year := 2022; time.Month := 4; time.Day := 13;
           time.Hour := 3; time.Minute := 42; time.Second := 7;
           time.Nanosecond := 987654321 |}.
Proof. unfold valid. cbn. lia. Qed.

Lemma objectKey_determines_the_second_witness :
  objectKey (NewBackup sample.db sample.client) sample.t sample.stream
  = objectKey (NewBackup sample.db sample.client)
      {| time.Year := 2022; time.Month := 4; time.Day := 13;
         time.Hour := 3; time.Minute := 42; time.Second := 7;
         time.Nanosecond := 987654321 |}
      sample.stream.
Proof.
  apply (objectKey_determines_the_second
           (NewBackup sample.db sample.client)
           (NewBackup sample.db sample.client)
           sample.t
           {| time.Year := 2022; time.Month := 4; time.Day := 13;
              time.Hour := 3; time.Minute := 42; time.Second := 7;
              time.Nanosecond := 987654321 |}
           sample.stream sample.stream sample_valid sample_valid_later).
  reflexivity.
Defined.

End backup_more_facts.

(** ** OpenKV: what the result depends on *)

Module auth_more_facts.

Import auth.

Section WithStores.

Variables SQL Badger NodeConfig : Type.
Variable SplitConnStr : string -> (string * string * string) + error.
Variable sqlauth_Open : string -> sqlauth_Options -> SQL + error.

(** X18.  Unless the driver of the connection string is [badger],
    [OpenKV] looks neither at the node configuration nor at the migration
    configuration and does not open a badger store: two configurations
    with the same connection string give the same result, whatever
    [badgerauth.New] would do. *)
Theorem OpenKV_reads_the_node_only_for_badger
    (New1 New2 : NodeConfig -> Badger + error) (c1 c2 : Config NodeConfig) :
  KVBackend c1 = KVBackend c2 ->
  (forall source implementation,
     SplitConnStr (KVBackend c1) <> inl ("badger", source, implementation)) ->
  OpenKV SplitConnStr sqlauth_Open New1 c1
  = OpenKV SplitConnStr sqlauth_Open New2 c2.
Proof.
  intros Hk Hnot. unfold OpenKV. rewrite <- Hk.
  destruct (SplitConnStr (KVBackend c1)) as [[[driver source] impl] | err];
    [| reflexivity].
  destruct (String.eqb driver "memory"); [reflexivity |].
  destruct (String.eqb driver "pgxcockroach" || String.eqb driver "postgres"
            || String.eqb driver "cockroach" || String.eqb driver "pgx");
    [reflexivity |].
  destruct (String.eqb_spec driver "badger") as [-> | _]; [| reflexivity].
  exfalso. exact (Hnot source impl eq_refl).
Qed.

Variable badgerauth_New : NodeConfig -> Badger + error.

(** X19.  When [OpenKV] returns no error it returns a store, and when it
    returns an error it returns no store: a caller that checks the error
    can use the store. *)
Theorem OpenKV_returns_a_store_or_an_error (config : Config NodeConfig) :
  (exists kv,
     OpenKV SplitConnStr sqlauth_Open badgerauth_New config = (Some kv, None))
  \/ (exists err,
        OpenKV SplitConnStr sqlauth_Open badgerauth_New config
        = (None, Some err)).
Proof.
  unfold OpenKV.
  destruct (SplitConnStr (KVBackend config))
    as [[[driver source] impl] | err]; [| right; eexists; reflexivity].
  destruct (String.eqb driver "memory"); [left; eexists; reflexivity |].
  destruct (String.eqb driver "pgxcockroach" || String.eqb driver "postgres"
            || String.eqb driver "cockroach" || String.eqb driver "pgx").
  { destruct (sqlauth_Open _ _);
      [left | right]; eexists; reflexivity. }
  destruct (String.eqb driver "badger"); [| right; eexists; reflexivity].
  destruct (badgerauth_New _); [| right; eexists; reflexivity].
  destruct (negb _); [| left; eexists; reflexivity].
  destruct (sqlauth_Open _ _); [left | right]; eexists; reflexivity.
Qed.

End WithStores.

Lemma OpenKV_reads_the_node_only_for_badger_witness :
  OpenKV sample.SplitConnStr sample.sqlauth_Open sample.badgerauth_New
    (sample.authConfig "pgx://db" "")
  = OpenKV sample.SplitConnStr sample.sqlauth_Open
      (fun _ => inr (Foreign "no disk"))
      (sample.authConfig "pgx://db" "postgres://old").
Proof.
  apply (OpenKV_reads_the_node_only_for_badger _ _ _ sample.SplitConnStr
           sample.sqlauth_Open sample.badgerauth_New
           (fun _ => inr (Foreign "no disk"))
           (sample.authConfig "pgx://db" "")
           (sample.authConfig "pgx://db" "postgres://old")).
  - reflexivity.
  - intros source implementation. vm_compute. discriminate.
Defined.

End auth_more_facts.

(** ** cmd/authservice: run-migration and run *)

Module authservice_facts.

Import auth authservice.

Lemma Combine_two_nil (combinedError : list error -> error)
    (a b : option error) :
  errs.Combine combinedError [a; b] = None <-> a = None /\ b = None.
Proof.
  destruct a, b; cbn; split; intros H;
    try discriminate; try (destruct H; discriminate); auto.
Qed.

Lemma OpenKV_never_nil_nil {SQL Badger NodeConfig : Type}
    (SplitConnStr : string -> (string * string * string) + error)
    (sqlauth_Open : string -> sqlauth_Options -> SQL + error)
    (badgerauth_New : NodeConfig -> Badger + error)
    (config : Config NodeConfig) :
  OpenKV SplitConnStr sqlauth_Open badgerauth_New config <> (None, None).
Proof.
  unfold OpenKV.
  destruct (SplitConnStr (KVBackend config))
    as [[[driver source] impl] | err]; [| discriminate].
  destruct (String.eqb driver "memory"); [discriminate |].
  destruct (String.eqb driver "pgxcockroach" || String.eqb driver "postgres"
            || String.eqb driver "cockroach" || String.eqb driver "pgx").
  { destruct (sqlauth_Open _ _); discriminate. }
  destruct (String.eqb driver "badger"); [| discriminate].
  destruct (badgerauth_New _); [| discriminate].
  destruct (negb _); [| discriminate].
  destruct (sqlauth_Open _ _); discriminate.
Qed.

Section WithCommands.

Variables SQL Badger NodeConfig Peer : Type.
Variable SplitConnStr : string -> (string * string * string) + error.
Variable sqlauth_Open : string -> sqlauth_Options -> SQL + error.
Variable badgerauth_New : NodeConfig -> Badger + error.
Variable combinedError : list error -> error.
Variable isCanceled : error -> bool.
Variable errs_Wrap : error -> error.
Variable errs_New_w : string -> error -> error.
Variable typeName : Store SQL Badger -> string.
Variable kv_Run : Store SQL Badger -> option error.
Variable kv_Close : Store SQL Badger -> option error.
Variable kv_MigrateToLatest : Store SQL Badger -> option (option error).
Variable InitMetricsWithHostname : option error.
Variable otlptrace_New : option error.
Variable resource_New : option error.
Variable otelprom_New : option error.
Variable auth_New : Config NodeConfig -> Peer + error.
Variable p_Run : Peer -> option error.
Variable p_Close : Peer -> option error.

Local Abbreviation open := (OpenKV SplitConnStr sqlauth_Open badgerauth_New).
Local Abbreviation migrationRun :=
  (cmdMigrationRun SQL Badger NodeConfig SplitConnStr sqlauth_Open
     badgerauth_New combinedError isCanceled errs_Wrap typeName kv_Run
     kv_Close kv_MigrateToLatest).
Local Abbreviation run :=
  (cmdRun SQL Badger NodeConfig Peer SplitConnStr sqlauth_Open
     badgerauth_New combinedError isCanceled errs_Wrap errs_New_w typeName
     kv_Run kv_Close kv_MigrateToLatest InitMetricsWithHostname
     otlptrace_New resource_New otelprom_New auth_New p_Run p_Close).

(** The three ways [OpenKV] can answer, the third one excluded. *)
Lemma open_cases (runCfg : Config NodeConfig) :
  (exists kv, open runCfg = (Some kv, None))
  \/ (exists o err, open runCfg = (o, Some err)).
Proof.
  pose proof (OpenKV_never_nil_nil SplitConnStr sqlauth_Open badgerauth_New
                runCfg) as Hnn.
  destruct (open runCfg) as [[kv |] [err |]].
  - right. eauto.
  - left. eauto.
  - right. eauto.
  - contradiction.
Qed.

(** X20.  [cmdMigrationRun] closes the store exactly once when [OpenKV]
    gave one and never otherwise, and it starts the goroutine of
    [kv.Run] for every store it opened; but it waits for that goroutine
    only when the store has migrations and migrated without error.  On
    the two other returns the store is closed and the context cancelled
    with the goroutine not waited for. *)
Theorem cmdMigrationRun_waits_only_after_a_migration
    (runCfg : Config NodeConfig) :
  calls EvKVClose (snd (migrationRun runCfg))
  = match snd (open runCfg) with Some _ => 0 | None => 1 end%nat
  /\ calls EvGo (snd (migrationRun runCfg))
     = calls EvKVClose (snd (migrationRun runCfg))
  /\ (In EvWait (snd (migrationRun runCfg))
      <-> exists kv,
            open runCfg = (Some kv, None)
            /\ kv_MigrateToLatest kv = Some None).
Proof.
  unfold cmdMigrationRun.
  destruct (open_cases runCfg) as [[kv ->] | [o [err ->]]].
  - cbn [snd].
    destruct (kv_MigrateToLatest kv) as [[e |] |] eqn:Em; cbn [snd];
      (split; [reflexivity |]); (split; [reflexivity |]); split.
    + cbn. intuition discriminate.
    + intros (kv' & [= <-] & Hm). congruence.
    + intros _. eauto.
    + intros _. cbn. auto 10.
    + cbn. intuition discriminate.
    + intros (kv' & [= <-] & Hm). congruence.
  - destruct o; cbn [snd]; (split; [reflexivity |]);
      (split; [reflexivity |]); split;
      try (cbn; intuition discriminate);
      intros (kv' & Hopen & _); discriminate.
Qed.

(** X21.  [cmdMigrationRun] returns nil exactly when the store was
    opened, has migrations, migrated without error, its [Run] ended
    without error or by cancellation, and [Close] returned nil. *)
Theorem cmdMigrationRun_nil_iff_every_step_succeeded
    (runCfg : Config NodeConfig) :
  fst (migrationRun runCfg) = Returns None
  <-> exists kv,
        open runCfg = (Some kv, None)
        /\ kv_MigrateToLatest kv = Some None
        /\ errs.IgnoreCanceled isCanceled (kv_Run kv) = None
        /\ kv_Close kv = None.
Proof.
  unfold cmdMigrationRun.
  destruct (open_cases runCfg) as [[kv ->] | [o [err ->]]].
  - destruct (kv_MigrateToLatest kv) as [[e |] |] eqn:Em; cbn [fst].
    + split.
      * intros H. injection H as H.
        apply Combine_two_nil in H. destruct H; discriminate.
      * intros (kv' & H & Hm & _). injection H as <-. congruence.
    + split.
      * intros H. injection H as H. apply Combine_two_nil in H.
        exists kv. tauto.
      * intros (kv' & H & _ & Hr & Hc). injection H as <-.
        f_equal. apply Combine_two_nil. tauto.
    + split.
      * intros H. injection H as H.
        apply Combine_two_nil in H. destruct H; discriminate.
      * intros (kv' & H & Hm & _). injection H as <-. congruence.
  - destruct o; cbn [fst]; (split; [discriminate |]);
      intros (kv' & H & _); discriminate.
Qed.

Lemma cmdMigrationRun_returns_aux (runCfg : Config NodeConfig) :
  exists err, fst (migrationRun runCfg) = Returns err.
Proof.
  unfold cmdMigrationRun.
  destruct (open_cases runCfg) as [[kv ->] | [o [err ->]]].
  - destruct (kv_MigrateToLatest kv) as [[e |] |]; cbn [fst]; eauto.
  - destruct o; cbn [fst]; eauto.
Qed.

(** X22.  [cmdMigrationRun] never uses a nil store: whatever [OpenKV]
    and the store answer, it returns. *)
Theorem cmdMigrationRun_returns (runCfg : Config NodeConfig) :
  fst (migrationRun runCfg) <> Panics
  /\ fst (migrationRun runCfg) <> Exits.
Proof.
  destruct (cmdMigrationRun_returns_aux runCfg) as [err ->].
  split; discriminate.
Qed.

(** X23.  [cmdRun] returns nil exactly when the migration, if asked for,
    returned nil, the telemetry was set up without error, the peer was
    made, its [Run] ended without error or by cancellation, and its
    [Close] returned nil. *)
Theorem cmdRun_nil_iff_every_step_succeeded
    (migration : bool) (runCfg : Config NodeConfig) :
  fst (run migration runCfg) = Returns None
  <-> (migration = true -> fst (migrationRun runCfg) = Returns None)
      /\ InitMetricsWithHostname = None
      /\ otlptrace_New = None
      /\ resource_New = None
      /\ otelprom_New = None
      /\ exists p,
           auth_New runCfg = inl p
           /\ errs.IgnoreCanceled isCanceled (p_Run p) = None
           /\ p_Close p = None.
Proof.
  unfold cmdRun, initTracer, initMeter.
  assert (Hm : forall r t,
            (if migration then migrationRun runCfg
             else (Returns None, [])) = (r, t) ->
            (r = Returns None
             <-> (migration = true ->
                  fst (migrationRun runCfg) = Returns None))).
  { intros r t E. destruct migration.
    - rewrite E. cbn. split; auto.
    - injection E as <- <-. split; auto. discriminate. }
  destruct (if migration then migrationRun runCfg else (Returns None, []))
    as [r t0] eqn:E.
  specialize (Hm r t0 eq_refl).
  destruct r as [[e |] | |].
  - cbn [fst]. split; [discriminate |].
    intros [H _]. apply Hm in H. discriminate.
  - assert (Hok : migration = true ->
                  fst (migrationRun runCfg) = Returns None)
      by (apply Hm; reflexivity).
    destruct InitMetricsWithHostname as [e |]; cbn [fst].
    { split; [discriminate |]. intros (_ & H & _). discriminate. }
    destruct otlptrace_New as [e |]; cbn [fst].
    { split; [discriminate |]. intros (_ & _ & H & _). discriminate. }
    destruct resource_New as [e |]; cbn [fst].
    { split; [discriminate |]. intros (_ & _ & _ & H & _). discriminate. }
    destruct otelprom_New as [e |]; cbn [fst].
    { split; [discriminate |]. intros (_ & _ & _ & _ & H & _). discriminate. }
    destruct (auth_New runCfg) as [p | e]; cbn [fst].
    + split.
      * intros H. injection H as H. apply Combine_two_nil in H.
        repeat (split; [assumption || reflexivity |]).
        exists p. tauto.
      * intros (_ & _ & _ & _ & _ & p' & H & Hr & Hc).
        injection H as <-. f_equal. apply Combine_two_nil. tauto.
    + split; [discriminate |].
      intros (_ & _ & _ & _ & _ & p' & H & _). discriminate.
  - cbn [fst]. split; [discriminate |].
    intros [H _]. apply Hm in H. discriminate.
  - cbn [fst]. split; [discriminate |].
    intros [H _]. apply Hm in H. discriminate.
Qed.

(** X24.  When [cmdRun] runs the migration first, it makes the peer only
    after [cmdMigrationRun] returned nil, and all calls of the migration,
    the closing of its store included, come before any other call. *)
Theorem cmdRun_makes_the_peer_after_the_migration
    (runCfg : Config NodeConfig) :
  In EvNew (snd (run true runCfg)) ->
  fst (migrationRun runCfg) = Returns None
  /\ exists later,
       snd (run true runCfg) = snd (migrationRun runCfg) ++ later
       /\ ~ In EvKVClose later.
Proof.
  unfold cmdRun, initTracer, initMeter.
  assert (Hnew : ~ In EvNew (snd (migrationRun runCfg))).
  { unfold cmdMigrationRun.
    destruct (open runCfg) as [[kv |] [err |]]; cbn;
      try (intuition discriminate).
    destruct (kv_MigrateToLatest kv) as [[e |] |]; cbn;
      intuition discriminate. }
  destruct (migrationRun runCfg) as [r t0].
  cbn [fst snd] in *.
  destruct r as [[e |] | |]; cbn [snd]; try (intros H; contradiction).
  destruct InitMetricsWithHostname as [e |]; cbn [snd].
  { intros H. apply in_app_or in H. destruct H as [H | H];
      [contradiction | cbn in H; intuition discriminate]. }
  destruct otlptrace_New as [e |]; cbn [snd].
  { intros H. apply in_app_or in H. destruct H as [H | H];
      [contradiction | cbn in H; intuition discriminate]. }
  destruct resource_New as [e |]; cbn [snd].
  { intros H. apply in_app_or in H. destruct H as [H | H];
      [contradiction | cbn in H; intuition discriminate]. }
  destruct otelprom_New as [e |]; cbn [snd].
  { intros H. apply in_app_or in H. destruct H as [H | H];
      [contradiction | cbn in H; intuition discriminate]. }
  intros _. split; [reflexivity |].
  destruct (auth_New runCfg) as [p | e]; cbn [snd];
    rewrite <- app_assoc; eexists; (split; [reflexivity |]);
    cbn; intuition discriminate.
Qed.

(** X25.  When the Prometheus exporter cannot be made, [cmdRun] does not
    return an error: the process ends, and the peer is not made. *)
Theorem cmdRun_exits_without_the_exporter
    (migration : bool) (runCfg : Config NodeConfig) (err : error) :
  otelprom_New = Some err ->
  (fst (run migration runCfg) = Exits
   \/ exists e, fst (run migration runCfg) = Returns (Some e))
  /\ ~ In EvNew (snd (run migration runCfg)).
Proof.
  intros Hp. unfold cmdRun, initTracer, initMeter. rewrite Hp.
  assert (Hnew : ~ In EvNew
                   (snd (if migration then migrationRun runCfg
                         else (Returns None, [])))).
  { destruct migration; [| cbn; tauto].
    unfold cmdMigrationRun.
    destruct (open runCfg) as [[kv |] [e |]]; cbn;
      try (intuition discriminate).
    destruct (kv_MigrateToLatest kv) as [[e |] |]; cbn;
      intuition discriminate. }
  assert (Hret : forall r t,
            (if migration then migrationRun runCfg
             else (Returns None, [])) = (r, t) ->
            exists e, r = Returns e).
  { intros r t E. destruct migration.
    - destruct (cmdMigrationRun_returns_aux runCfg) as [e He].
      rewrite E in He. eauto.
    - injection E as <- <-. eauto. }
  destruct (if migration then migrationRun runCfg else (Returns None, []))
    as [r t0].
  destruct (Hret r t0 eq_refl) as [e ->]. cbn [snd] in Hnew.
  destruct e as [e |]; cbn [fst snd]; [split; eauto |].
  destruct InitMetricsWithHostname as [e |]; cbn [fst snd].
  { split; [eauto |]. intros H. apply in_app_or in H.
    destruct H as [H | H]; [contradiction | cbn in H; intuition discriminate]. }
  destruct otlptrace_New as [e |]; cbn [fst snd].
  { split; [eauto |]. intros H. apply in_app_or in H.
    destruct H as [H | H]; [contradiction | cbn in H; intuition discriminate]. }
  destruct resource_New as [e |]; cbn [fst snd].
  { split; [eauto |]. intros H. apply in_app_or in H.
    destruct H as [H | H]; [contradiction | cbn in H; intuition discriminate]. }
  split; [auto |]. intros H. apply in_app_or in H.
  destruct H as [H | H]; [contradiction | cbn in H; intuition discriminate].
Qed.

End WithCommands.

Section WithSetup.

Variable filepath_Abs : string -> string + error.
Variable IsValidSetupDir : string -> bool.
Variable MkdirAll : string -> option error.
Variable SaveConfig : string -> option error.
Variable filepath_Join : string -> string -> string.

Local Abbreviation setup :=
  (cmdSetup filepath_Abs IsValidSetupDir MkdirAll SaveConfig filepath_Join).

(** X7.  [cmdSetup] touches the file system only in a directory that is
    valid for a set-up, so never where a configuration already exists,
    and saves the configuration only after the directory was made. *)
Theorem cmdSetup_writes_only_into_a_valid_directory
    (confDir : string) (call : SetupCall) :
  In call (snd (setup confDir)) ->
  exists setupDir,
    filepath_Abs confDir = inl setupDir
    /\ IsValidSetupDir setupDir = true
    /\ (call = CallMkdirAll setupDir
        \/ (call = CallSaveConfig (filepath_Join setupDir "config.yaml")
            /\ MkdirAll setupDir = None)).
Proof.
  unfold cmdSetup.
  destruct (filepath_Abs confDir) as [setupDir | err]; [| intros []].
  destruct (IsValidSetupDir setupDir) eqn:Hvalid; cbn [negb]; [| intros []].
  destruct (MkdirAll setupDir) as [err |] eqn:Hmk; cbn [snd].
  - intros [<- | []]. exists setupDir. auto.
  - intros [<- | [<- | []]]; exists setupDir; auto.
Qed.

End WithSetup.

Lemma cmdSetup_writes_only_into_a_valid_directory_witness :
  exists setupDir,
    @inl string error ("/home/user/" +:+ "authservice") = inl setupDir
    /\ negb (String.eqb setupDir "/etc") = true
    /\ (CallSaveConfig "/home/user/authservice/config.yaml"
        = CallMkdirAll setupDir
        \/ (CallSaveConfig "/home/user/authservice/config.yaml"
            = CallSaveConfig (setupDir +:+ "/" +:+ "config.yaml")
            /\ @None error = None)).
Proof.
  apply (cmdSetup_writes_only_into_a_valid_directory
           (fun dir => inl ("/home/user/" +:+ dir))
           (fun dir => negb (String.eqb dir "/etc"))
           (fun _ => None) (fun _ => None)
           (fun dir name => dir +:+ "/" +:+ name)
           "authservice"
           (CallSaveConfig "/home/user/authservice/config.yaml")).
  vm_compute. right. left. reflexivity.
Defined.

Lemma cmdRun_makes_the_peer_after_the_migration_witness :
  In EvNew (snd (sample_commands.run None true))
  /\ fst sample_commands.migrationRun = Returns None
  /\ exists later,
       snd (sample_commands.run None true)
       = snd sample_commands.migrationRun ++ later
       /\ ~ In EvKVClose later.
Proof.
  assert (H : In EvNew (snd (sample_commands.run None true))).
  { vm_compute. repeat (first [left; reflexivity | right]). }
  split; [exact H |].
  exact (cmdRun_makes_the_peer_after_the_migration
           string badgerauth.DB badgerauth.Config unit
           sample.SplitConnStr sample.sqlauth_Open sample.badgerauth_New
           (fun _ => Foreign "combined") sample_commands.isCanceled
           (fun e => e) (fun _ e => e) (fun _ => "*memauth.KV")
           (fun _ => Some (Foreign "context canceled")) (fun _ => None)
           (fun _ => Some None)
           None None None None
           (fun _ => inl tt) (fun _ => None) (fun _ => None)
           (sample.authConfig "memory://" "") H).
Defined.

Lemma cmdRun_exits_without_the_exporter_witness :
  (fst (sample_commands.run (Some (Foreign "duplicate collector")) false)
   = Exits
   \/ exists e,
        fst (sample_commands.run (Some (Foreign "duplicate collector")) false)
        = Returns (Some e))
  /\ ~ In EvNew
         (snd (sample_commands.run (Some (Foreign "duplicate collector"))
                 false)).
Proof.
  exact (cmdRun_exits_without_the_exporter
           string badgerauth.DB badgerauth.Config unit
           sample.SplitConnStr sample.sqlauth_Open sample.badgerauth_New
           (fun _ => Foreign "combined") sample_commands.isCanceled
           (fun e => e) (fun _ e => e) (fun _ => "*memauth.KV")
           (fun _ => Some (Foreign "context canceled")) (fun _ => None)
           (fun _ => Some None)
           None None None (Some (Foreign "duplicate collector"))
           (fun _ => inl tt) (fun _ => None) (fun _ => None)
           false (sample.authConfig "memory://" "")
           (Foreign "duplicate collector") eq_refl).
Defined.

End authservice_facts.

(** ** findBoolFlagEarly *)

Module gateway_facts.

Import gateway.

(** Arguments that do not carry the flag are skipped. *)
Lemma findBoolFlagEarlyFrom_skip (flagName : string)
    (before rest : list string) :
  (forall arg, In arg before ->
               argHasPrefix arg ("--" +:+ flagName) = false) ->
  findBoolFlagEarlyFrom flagName (before ++ rest)
  = findBoolFlagEarlyFrom flagName rest.
Proof.
  induction before as [| a before IH]; intros H; [reflexivity |].
  cbn [app findBoolFlagEarlyFrom].
  rewrite (H a (or_introl eq_refl)). cbn [negb].
  apply IH. intros arg Hin. apply H. right. exact Hin.
Qed.

(** X26.  [findBoolFlagEarly] answers true only if some argument starts
    with [--<flagName>], does not start with [--<flagName>=false] and is
    not followed by the argument [false]. *)
Theorem findBoolFlagEarly_true_has_a_deciding_argument
    (os_Args : list string) (flagName : string) :
  findBoolFlagEarly os_Args flagName = true ->
  exists before arg after,
    os_Args = before ++ arg :: after
    /\ argHasPrefix arg ("--" +:+ flagName) = true
    /\ argHasPrefix arg ("--" +:+ flagName +:+ "=false") = false
    /\ head after <> Some "false".
Proof.
  unfold findBoolFlagEarly.
  induction os_Args as [| arg rest IH]; [discriminate |].
  cbn [findBoolFlagEarlyFrom].
  destruct (argHasPrefix arg ("--" +:+ flagName)) eqn:Ehas; cbn [negb].
  - destruct (match rest with
              | next :: _ => String.eqb next "false"
              | [] => false
              end) eqn:Enext; [discriminate |].
    destruct (argHasPrefix arg ("--" +:+ flagName +:+ "=false")) eqn:Efalse;
      cbn [negb].
    + intros H. destruct (IH H) as (before & a & after & -> & ?).
      exists (arg :: before), a, after. split; [reflexivity | assumption].
    + intros _. exists [], arg, rest.
      repeat (split; [reflexivity || assumption |]).
      destruct rest as [| next rest]; [discriminate |].
      cbn. intros H. injection H as ->. discriminate.
  - intros H. destruct (IH H) as (before & a & after & -> & ?).
    exists (arg :: before), a, after. split; [reflexivity | assumption].
Qed.

(** X27.  The first argument that starts with [--<flagName>] decides for
    true when it does not start with [--<flagName>=false] and is not
    followed by the argument [false].  Any argument that starts with the
    flag's name counts, also the flag of a longer name. *)
Theorem findBoolFlagEarly_first_flag_decides
    (flagName : string) (before : list string) (arg : string)
    (after : list string) :
  (forall a, In a before -> argHasPrefix a ("--" +:+ flagName) = false) ->
  argHasPrefix arg ("--" +:+ flagName) = true ->
  argHasPrefix arg ("--" +:+ flagName +:+ "=false") = false ->
  head after <> Some "false" ->
  findBoolFlagEarly (before ++ arg :: after) flagName = true.
Proof.
  intros Hbefore Hhas Hfalse Hnext. unfold findBoolFlagEarly.
  rewrite findBoolFlagEarlyFrom_skip by exact Hbefore.
  cbn [findBoolFlagEarlyFrom]. rewrite Hhas, Hfalse. cbn [negb].
  destruct after as [| next after]; [reflexivity |].
  destruct (String.eqb_spec next "false") as [-> | _]; [| reflexivity].
  exfalso. apply Hnext. reflexivity.
Qed.

(** X28.  When the first argument that starts with [--<flagName>] is
    followed by the argument [false], the answer is false, whatever the
    argument itself says and whatever comes later. *)
Theorem findBoolFlagEarly_false_after_the_flag
    (flagName : string) (before : list string) (arg : string)
    (after : list string) :
  (forall a, In a before -> argHasPrefix a ("--" +:+ flagName) = false) ->
  argHasPrefix arg ("--" +:+ flagName) = true ->
  findBoolFlagEarly (before ++ arg :: "false" :: after) flagName = false.
Proof.
  intros Hbefore Hhas. unfold findBoolFlagEarly.
  rewrite findBoolFlagEarlyFrom_skip by exact Hbefore.
  cbn [findBoolFlagEarlyFrom]. rewrite Hhas. reflexivity.
Qed.

Lemma findBoolFlagEarly_true_has_a_deciding_argument_witness :
  exists before arg after,
    ["gateway-mt"; "run"; "--advanced"; "--help"] = before ++ arg :: after
    /\ argHasPrefix arg ("--" +:+ "advanced") = true
    /\ argHasPrefix arg ("--" +:+ "advanced" +:+ "=false") = false
    /\ head after <> Some "false".
Proof.
  apply (findBoolFlagEarly_true_has_a_deciding_argument
           ["gateway-mt"; "run"; "--advanced"; "--help"] "advanced").
  vm_compute. reflexivity.
Defined.

Lemma findBoolFlagEarly_first_flag_decides_witness :
  findBoolFlagEarly
    (["gateway-mt"; "run"] ++ "--advanced-mode=false" :: ["--help"])
    "advanced" = true.
Proof.
  apply (findBoolFlagEarly_first_flag_decides "advanced"
           ["gateway-mt"; "run"] "--advanced-mode=false" ["--help"]).
  - intros a [<- | [<- | []]]; vm_compute; reflexivity.
  - vm_compute. reflexivity.
  - vm_compute. reflexivity.
  - cbn. discriminate.
Defined.

Lemma findBoolFlagEarly_false_after_the_flag_witness :
  findBoolFlagEarly
    (["gateway-mt"; "run"] ++ "--advanced=true" :: "false" :: ["--advanced"])
    "advanced" = false.
Proof.
  apply (findBoolFlagEarly_false_after_the_flag "advanced"
           ["gateway-mt"; "run"] "--advanced=true" ["--advanced"]).
  - intros a [<- | [<- | []]]; vm_compute; reflexivity.
  - vm_compute. reflexivity.
Defined.

End gateway_facts.

(** ** linksharing: Peer.Close and the user agent of an event *)

Module linksharing_facts.

Import linksharing.

Lemma substring_length (n : nat) (s : string) :
  (n <= String.length s)%nat ->
  String.length (String.substring 0 n s) = n.
Proof.
  revert s. induction n as [| n IH]; intros s H.
  - destruct s; reflexivity.
  - destruct s as [| c s]; [cbn in H; lia |].
    cbn. f_equal. apply IH. cbn in H. lia.
Qed.

Lemma substring_prefix (n : nat) (s : string) :
  String.prefix (String.substring 0 n s) s = true.
Proof.
  revert s. induction n as [| n IH]; intros s.
  - destruct s; reflexivity.
  - destruct s as [| c s]; [reflexivity |].
    cbn. destruct (Ascii.ascii_dec c c) as [_ | Hne]; [apply IH |].
    contradiction.
Qed.

Lemma prefix_refl (s : string) : String.prefix s s = true.
Proof.
  induction s as [| c s IH]; [reflexivity |].
  cbn. destruct (Ascii.ascii_dec c c) as [_ | Hne]; [exact IH |].
  contradiction.
Qed.

(** X29.  The user agent that [CollectEvent] reports is never empty and
    never longer than 32 bytes: it is [unknown], or the beginning of the
    product of the first entry of the request's user agent. *)
Theorem product_is_short_and_not_empty
    (agents : list Entry) (err : option error) :
  product agents err <> ""
  /\ (String.length (product agents err) <= 32)%nat
  /\ (product agents err = "unknown"
      \/ exists agent rest,
           err = None /\ agents = agent :: rest
           /\ String.prefix (product agents err) (Product agent) = true).
Proof.
  unfold product.
  destruct err as [e |];
    [split; [discriminate |]; split; [cbn; lia | left; reflexivity] |].
  destruct agents as [| agent rest];
    [split; [discriminate |]; split; [cbn; lia | left; reflexivity] |].
  destruct (String.eqb_spec (Product agent) "") as [E | Hne]; cbn [negb];
    [split; [discriminate |]; split; [cbn; lia | left; reflexivity] |].
  destruct (Nat.ltb_spec 32 (String.length (Product agent))) as [Hlong | Hshort].
  - split; [| split].
    + intros H. apply (f_equal String.length) in H.
      rewrite substring_length in H by lia. discriminate.
    + rewrite substring_length by lia. lia.
    + right. exists agent, rest.
      repeat (split; [reflexivity |]). apply substring_prefix.
  - split; [exact Hne | split; [exact Hshort |]].
    right. exists agent, rest.
    repeat (split; [reflexivity |]). apply prefix_refl.
Qed.

Section WithPeer.

Variables httpserver_Server objectmap_IPDB : Type.
Variable combinedError : list error -> error.
Variable Shutdown : httpserver_Server -> option error.
Variable IPDB_Close : objectmap_IPDB -> option error.

Local Abbreviation close :=
  (Close httpserver_Server objectmap_IPDB combinedError Shutdown IPDB_Close).

(** X30.  [Peer.Close] closes the geo-location database whenever the peer
    has one, also when shutting the server down failed, and returns nil
    exactly when every part it closed returned nil. *)
Theorem Close_closes_every_part
    (peer : Peer httpserver_Server objectmap_IPDB) :
  (In ServerShutdown (snd (close peer)) <-> Server peer <> None)
  /\ (In MapperClose (snd (close peer)) <-> Mapper peer <> None)
  /\ (fst (close peer) = None
      <-> (forall server, Server peer = Some server ->
                          Shutdown server = None)
          /\ (forall mapper, Mapper peer = Some mapper ->
                             IPDB_Close mapper = None)).
Proof.
  unfold Close.
  destruct peer as [[mapper |] [server |]]; cbn [Server Mapper].
  - destruct (Shutdown server) as [e1 |] eqn:E1,
             (IPDB_Close mapper) as [e2 |] eqn:E2; cbn;
      (split; [split; [discriminate | tauto] |]);
      (split; [split; [discriminate | tauto] |]);
      split; try discriminate; try (intros _; split; intros ? [= <-]; assumption);
      intros [H1 H2];
      first [ specialize (H1 _ eq_refl); congruence
            | specialize (H2 _ eq_refl); congruence ].
  - destruct (IPDB_Close mapper) as [e2 |] eqn:E2; cbn;
      (split; [split; [intuition discriminate | intros H; contradiction] |]);
      (split; [split; [discriminate | tauto] |]);
      split; try discriminate;
      try (intros _; split; [discriminate | intros ? [= <-]; assumption]);
      intros [_ H2]; specialize (H2 _ eq_refl); congruence.
  - destruct (Shutdown server) as [e1 |] eqn:E1; cbn;
      (split; [split; [discriminate | tauto] |]);
      (split; [split; [intuition discriminate | intros H; contradiction] |]);
      split; try discriminate;
      try (intros _; split; [intros ? [= <-]; assumption | discriminate]);
      intros [H1 _]; specialize (H1 _ eq_refl); congruence.
  - cbn. split; [split; [tauto | intros H; contradiction] |].
    split; [split; [tauto | intros H; contradiction] |].
    split; [intros _; split; discriminate | reflexivity].
Qed.

End WithPeer.

Section WithNew.

Variables httpserver_Server objectmap_IPDB : Type.
Variables httpserver_Config sharing_Config maxminddb_Reader : Type.
Variables sharing_Handler http_Handler : Type.
Variable combinedError : list error -> error.
Variable Shutdown : httpserver_Server -> option error.
Variable IPDB_Close : objectmap_IPDB -> option error.
Variable errs_New_w : string -> error -> error.
Variable maxminddb_Open : string -> maxminddb_Reader + error.
Variable objectmap_NewIPDB : maxminddb_Reader -> objectmap_IPDB.
Variable sharing_NewHandler :
  option objectmap_IPDB -> sharing_Config -> sharing_Handler + error.
Variable otelhttp_NewHandler : sharing_Handler -> http_Handler.
Variable AddRequestID : http_Handler -> http_Handler.
Variable httpserver_New :
  http_Handler -> httpserver_Config -> httpserver_Server + error.

Local Abbreviation close :=
  (Close httpserver_Server objectmap_IPDB combinedError Shutdown IPDB_Close).
Local Abbreviation new :=
  (New httpserver_Server objectmap_IPDB httpserver_Config sharing_Config
     maxminddb_Reader sharing_Handler http_Handler errs_New_w maxminddb_Open
     objectmap_NewIPDB sharing_NewHandler otelhttp_NewHandler AddRequestID
     httpserver_New).

(** X10.  A peer that [New] returns always has a server, and it has a
    geo-location database exactly when a path to one is configured: its
    [Close] shuts the server down and then closes the database that
    [New] opened, if any. *)
Theorem Close_closes_what_New_made
    (config : Config httpserver_Config sharing_Config)
    (peer : Peer httpserver_Server objectmap_IPDB) :
  fst (new config) = Some peer ->
  snd (new config) = None
  /\ snd (close peer)
     = ServerShutdown
       :: (if String.eqb (GeoLocationDB _ _ config) "" then []
           else [MapperClose]).
Proof.
  unfold New, Close.
  destruct (String.eqb (GeoLocationDB _ _ config) "") eqn:Egeo; cbn [negb].
  - destruct (sharing_NewHandler None _) as [handle | err]; [| discriminate].
    destruct (httpserver_New _ _) as [server | err]; [| discriminate].
    cbn [fst snd]. intros [= <-]. split; reflexivity.
  - destruct (maxminddb_Open _) as [reader | err]; [| discriminate].
    destruct (sharing_NewHandler _ _) as [handle | err]; [| discriminate].
    destruct (httpserver_New _ _) as [server | err]; [| discriminate].
    cbn [fst snd]. intros [= <-]. split; reflexivity.
Qed.

End WithNew.

Lemma Close_closes_what_New_made_witness :
  snd (Close unit string (fun _ => Foreign "combined")
         (fun _ => None) (fun _ => None)
         {| Mapper := Some "GeoLite2-City.mmdb"; Server := Some tt |})
  = [ServerShutdown; MapperClose].
Proof.
  apply (Close_closes_what_New_made unit string unit unit string unit unit
           (fun _ => Foreign "combined") (fun _ => None) (fun _ => None)
           (fun _ e => e) (fun path => inl path) (fun reader => reader)
           (fun _ _ => inl tt) (fun h => h) (fun h => h) (fun _ _ => inl tt)
           {| Config_Server := tt; Config_Handler := tt;
              GeoLocationDB := "GeoLite2-City.mmdb" |}
           {| Mapper := Some "GeoLite2-City.mmdb"; Server := Some tt |}).
  reflexivity.
Defined.

End linksharing_facts.
